(** * Interaction hooks of the UI component catalogue

    A shallow embedding of the four behavioural pieces of the repository:

    - [AnimatedCounter]  (react/tailwind-system/animations/AnimatedCounter.tsx)
    - [TypingAnimation]  (react/tailwind-system/animations/TypingAnimation.tsx)
    - [useTilt]          (shared/hooks/use-tilt)
    - [ThemeProvider] / [useTheme] (react/shared/hooks/use-theme.tsx)

    React state cells become record fields, an effect becomes a function from
    the rendered state to the resources it registers (timers, observers,
    listeners, animation frames), and the browser is an explicit event
    sequence.  Numbers are read twice: as exact rationals with the
    infinities and NaN ([JsNum]), and as IEEE 754 binary64 values
    ([Binary64]) where the rounding decides what is displayed.  *)

From stdpp Require Import base gmap strings list.
From Stdlib Require Import ZArith QArith Qround Qminmax Lqa Lia Sorted.
From Stdlib Require Floats.SpecFloat.

Local Open Scope Z_scope.

(* ===================================================================== *)
(** ** JavaScript numbers *)
(* ===================================================================== *)

(** A JavaScript [number] is a finite value, one of the two infinities, or
    NaN.  Finite values are exact rationals: rounding of binary64 and the
    sign of zero are not modelled.  This reading is used for what rounding
    to nearest, being monotone, preserves: bounds, the snap of the counter
    to [end], which callbacks are registered.  The digits the counter
    shows, and on which side of [endTime] a frame falls within one
    rounding step, are computed on binary64 values in [Binary64] and
    [AnimatedCounter64] below. *)
Module JsNum.

Inductive number : Type :=
| Fin (q : Q)
| PInf
| NInf
| NaN.

Definition isFinite (a : number) : bool :=
  match a with Fin _ => true | _ => false end.

Definition of_Z (z : Z) : number := Fin (inject_Z z).

Definition Qlt_bool (a b : Q) : bool := negb (Qle_bool b a).

Definition neg (a : number) : number :=
  match a with
  | Fin q => Fin (- q)
  | PInf => NInf
  | NInf => PInf
  | NaN => NaN
  end.

Definition add (a b : number) : number :=
  match a, b with
  | NaN, _ | _, NaN => NaN
  | Fin x, Fin y => Fin (x + y)
  | PInf, NInf | NInf, PInf => NaN
  | PInf, _ | _, PInf => PInf
  | NInf, _ | _, NInf => NInf
  end.

Definition sub (a b : number) : number := add a (neg b).

(** Sign of a finite value as an infinity; NaN for zero (the result of
    [0 * Infinity] and of [0 / 0]). *)
Definition signed_inf (q : Q) : number :=
  if Qlt_bool 0 q then PInf else if Qlt_bool q 0 then NInf else NaN.

Definition mul (a b : number) : number :=
  match a, b with
  | NaN, _ | _, NaN => NaN
  | Fin x, Fin y => Fin (x * y)
  | Fin x, PInf | PInf, Fin x => signed_inf x
  | Fin x, NInf | NInf, Fin x => neg (signed_inf x)
  | PInf, PInf | NInf, NInf => PInf
  | PInf, NInf | NInf, PInf => NInf
  end.

Definition div (a b : number) : number :=
  match a, b with
  | NaN, _ | _, NaN => NaN
  | Fin x, Fin y => if Qeq_bool y 0 then signed_inf x else Fin (x / y)
  | Fin _, (PInf | NInf) => Fin 0
  | PInf, Fin y => if Qlt_bool y 0 then NInf else PInf
  | NInf, Fin y => if Qlt_bool y 0 then PInf else NInf
  | (PInf | NInf), (PInf | NInf) => NaN
  end.

(** [a < b] of JavaScript: false as soon as one side is NaN. *)
Definition lt (a b : number) : bool :=
  match a, b with
  | NaN, _ | _, NaN => false
  | Fin x, Fin y => Qlt_bool x y
  | NInf, (Fin _ | PInf) => true
  | Fin _, PInf => true
  | _, _ => false
  end.

Definition le (a b : number) : bool :=
  match a, b with
  | NaN, _ | _, NaN => false
  | Fin x, Fin y => Qle_bool x y
  | NInf, _ => true
  | _, PInf => true
  | _, _ => false
  end.

(** [a === b] on numbers: NaN equals nothing. *)
Definition eqb (a b : number) : bool :=
  match a, b with
  | Fin x, Fin y => Qeq_bool x y
  | PInf, PInf | NInf, NInf => true
  | _, _ => false
  end.

(** [Math.min] on two arguments. *)
Definition min (a b : number) : number :=
  match a, b with
  | NaN, _ | _, NaN => NaN
  | _, _ => if le a b then a else b
  end.

(** [Math.floor]. *)
Definition floor (a : number) : number :=
  match a with
  | Fin q => Fin (inject_Z (Qfloor q))
  | _ => a
  end.

End JsNum.

Import JsNum.

Declare Scope js_scope.
Delimit Scope js_scope with js.
Bind Scope js_scope with number.
Infix "+" := add : js_scope.
Infix "-" := sub : js_scope.
Infix "*" := mul : js_scope.
Infix "/" := div : js_scope.
Infix "<?" := lt : js_scope.
Infix "<=?" := le : js_scope.
Notation "- x" := (neg x) : js_scope.

(** An outcome of code that may throw. *)
Inductive result (A : Type) : Type :=
| Ok (a : A)
| Throw (msg : string).
Arguments Ok {A} a.
Arguments Throw {A} msg.

(* ===================================================================== *)
(** ** AnimatedCounter *)
(* ===================================================================== *)

Module AnimatedCounter.

(** The props that drive behaviour ([suffix] and [className] only decorate
    the rendered span). *)
Record Props : Type := {
  end_ : number;
  duration : number
}.

(** One component instance together with what it has registered with the
    browser.
    - [count], [hasAnimated]: the two state cells, each holding the value
      last given to its setter;
    - [observer]: the connected IntersectionObserver, if any, carrying the
      value of [hasAnimated] that its callback closed over;
    - [frames]: the pending [requestAnimationFrame] callbacks; each is an
      [updateCounter] closure, determined by its [startTime]. *)
Record Instance : Type := {
  count : number;
  hasAnimated : bool;
  observer : option bool;
  frames : list Z
}.

Definition setCount (v : number) (c : Instance) : Instance :=
  {| count := v; hasAnimated := hasAnimated c;
     observer := observer c; frames := frames c |}.

Definition setHasAnimated (b : bool) (c : Instance) : Instance :=
  {| count := count c; hasAnimated := b;
     observer := observer c; frames := frames c |}.

Definition requestAnimationFrame (startTime : Z) (c : Instance) : Instance :=
  {| count := count c; hasAnimated := hasAnimated c;
     observer := observer c; frames := frames c ++ [startTime] |}.

Definition set_observer (o : option bool) (c : Instance) : Instance :=
  {| count := count c; hasAnimated := hasAnimated c;
     observer := o; frames := frames c |}.

Definition set_frames (fs : list Z) (c : Instance) : Instance :=
  {| count := count c; hasAnimated := hasAnimated c;
     observer := observer c; frames := fs |}.

Definition easeOutQuad (t : number) : number := (t * (Fin 2 - t))%js.

(** [animateCounter], called at clock value [now]: it requests the first
    frame for a closure that remembers [now] as its [startTime]. *)
Definition animateCounter (now : Z) (c : Instance) : Instance :=
  requestAnimationFrame now c.

(** The effect with dependency [hasAnimated]: it returns early when the
    flag is set, otherwise connects an observer whose callback captures
    the flag of this render.  The span is always rendered, so
    [counterRef.current] is never null when the effect runs. *)
Definition effect (c : Instance) : Instance :=
  if hasAnimated c then c
  else set_observer (Some (hasAnimated c)) c.

(** The cleanup returned by the effect: [observer.disconnect()]. *)
Definition cleanup (c : Instance) : Instance := set_observer None c.

(** Setup: first render and first effect run.  The props are not
    inspected. *)
Definition mount (_ : Props) : result Instance :=
  Ok (effect {| count := Fin 0; hasAnimated := false;
                observer := None; frames := [] |}).

(** Commit of a render in which [hasAnimated] differs from the value the
    connected effect saw: cleanup, then the effect again. *)
Definition commit (before : bool) (c : Instance) : Instance :=
  if Bool.eqb before (hasAnimated c) then c else effect (cleanup c).

(** One entry of the observer callback, with the captured flag. *)
Definition on_entry (captured : bool) (now : Z)
    (c : Instance) (isIntersecting : bool) : Instance :=
  if isIntersecting && negb captured
  then animateCounter now (setHasAnimated true c)
  else c.

(** The observer callback on a batch of entries, followed by the commit
    of the state updates it queued. *)
Definition intersect (entries : list bool) (now : Z)
    (c : Instance) : Instance :=
  match observer c with
  | None => c
  | Some captured =>
      commit (hasAnimated c)
        (fold_left (on_entry captured now) entries c)
  end.

(** Unmount runs the cleanup of the effect that is connected. *)
Definition unmount (c : Instance) : Instance := cleanup c.

Section WithProps.
Variable props : Props.

(** [updateCounter], the body of the frame loop, run at clock value [now]
    by the closure created at [startTime].  The arithmetic is exact here;
    [AnimatedCounter64.updateCounter] is the same body with every operation
    rounded. *)
Definition updateCounter (startTime now : Z) (c : Instance) : Instance :=
  let endTime := (of_Z startTime + duration props)%js in
  let progress :=
    min ((of_Z now - of_Z startTime) / duration props)%js (Fin 1) in
  let easedProgress := easeOutQuad progress in
  let currentCount := floor (easedProgress * end_ props)%js in
  let c := setCount currentCount c in
  if (of_Z now <? endTime)%js
  then requestAnimationFrame startTime c
  else setCount (end_ props) c.

(** One animation frame at clock value [now]: the browser runs the
    callbacks that were pending when the frame began; what they request
    is queued for the next frame. *)
Definition frame (now : Z) (c : Instance) : Instance :=
  fold_left (fun c startTime => updateCounter startTime now c)
            (frames c) (set_frames [] c).

(** Values of [count] after each of a sequence of frames. *)
Fixpoint displayed (times : list Z) (c : Instance) : list number :=
  match times with
  | [] => []
  | t :: times => let c' := frame t c in count c' :: displayed times c'
  end.

End WithProps.

End AnimatedCounter.

(* ===================================================================== *)
(** ** JavaScript strings *)
(* ===================================================================== *)

(** [String.prototype.slice]: a negative index counts from the end, and
    both indices are clamped to the string. *)
Definition clamp_index (len i : Z) : Z :=
  if i <? 0 then Z.max (len + i) 0 else Z.min i len.

Definition slice (s : string) (b e : Z) : string :=
  let len := Z.of_nat (String.length s) in
  let from := clamp_index len b in
  let to := clamp_index len e in
  String.substring (Z.to_nat from) (Z.to_nat (Z.max (to - from) 0)) s.

(* ===================================================================== *)
(** ** TypingAnimation *)
(* ===================================================================== *)

Module TypingAnimation.

Record Props : Type := {
  texts : list string;
  typingSpeed : number;
  deletingSpeed : number;
  pauseDuration : number
}.

(** The four state cells. *)
Record State : Type := {
  currentTextIndex : nat;
  currentText : string;
  isDeleting : bool;
  isPaused : bool
}.

Definition setCurrentTextIndex (i : nat) (s : State) : State :=
  {| currentTextIndex := i; currentText := currentText s;
     isDeleting := isDeleting s; isPaused := isPaused s |}.
Definition setCurrentText (t : string) (s : State) : State :=
  {| currentTextIndex := currentTextIndex s; currentText := t;
     isDeleting := isDeleting s; isPaused := isPaused s |}.
Definition setIsDeleting (b : bool) (s : State) : State :=
  {| currentTextIndex := currentTextIndex s; currentText := currentText s;
     isDeleting := b; isPaused := isPaused s |}.
Definition setIsPaused (b : bool) (s : State) : State :=
  {| currentTextIndex := currentTextIndex s; currentText := currentText s;
     isDeleting := isDeleting s; isPaused := b |}.

Definition initial : State :=
  {| currentTextIndex := 0%nat; currentText := "";
     isDeleting := false; isPaused := false |}.

(** The three [setTimeout] callbacks of the effect, with the values each
    closure captured from its render. *)
Inductive Callback : Type :=
| PauseTimeout
| TypeTimeout (currentFullText : option string) (currentText : string)
| DeleteTimeout (currentText : string).

(** What one run of the effect does: register a timer (and return the
    cleanup that clears it), set state at once, or nothing. *)
Inductive Action : Type :=
| Schedule (cb : Callback) (delay : number)
| Update (s' : State)
| Idle.

Section WithProps.
Variable props : Props.

(** The body of the effect, branch by branch.  [texts[currentTextIndex]]
    is [undefined] (here [None]) when the index is out of range.  The last
    branch takes the remainder by [texts.length]; with an empty list the
    machine never gets there, since deletion never begins. *)
Definition effect (s : State) : Action :=
  let currentFullText := texts props !! currentTextIndex s in
  if isPaused s then
    Schedule PauseTimeout (pauseDuration props)
  else if negb (isDeleting s)
          && negb (bool_decide (Some (currentText s) = currentFullText)) then
    Schedule (TypeTimeout currentFullText (currentText s)) (typingSpeed props)
  else if negb (isDeleting s)
          && bool_decide (Some (currentText s) = currentFullText) then
    Update (setIsPaused true s)
  else if isDeleting s && negb (bool_decide (currentText s = "")) then
    Schedule (DeleteTimeout (currentText s)) (deletingSpeed props)
  else if isDeleting s && bool_decide (currentText s = "") then
    Update (setCurrentTextIndex
              ((currentTextIndex s + 1) `mod` length (texts props))%nat
              (setIsDeleting false s))
  else Idle.

(** Running a timer callback.  Reading [.slice] of [undefined] throws. *)
Definition fire (cb : Callback) (s : State) : result State :=
  match cb with
  | PauseTimeout => Ok (setIsDeleting true (setIsPaused false s))
  | TypeTimeout None _ =>
      Throw "TypeError: Cannot read properties of undefined (reading 'slice')"
  | TypeTimeout (Some full) cur =>
      Ok (setCurrentText
            (slice full 0 (Z.of_nat (String.length cur) + 1)) s)
  | DeleteTimeout cur => Ok (setCurrentText (slice cur 0 (-1)) s)
  end.

(** The next state of the machine: the state set by the effect itself,
    or the one set by the timer it registered. *)
Definition next_state (s : State) : result State :=
  match effect s with
  | Schedule cb _ => fire cb s
  | Update s' => Ok s'
  | Idle => Ok s
  end.

Inductive reachable : State -> Prop :=
| reach_initial : reachable initial
| reach_next s s' : reachable s -> next_state s = Ok s' -> reachable s'.

(** A mounted instance: its state and the one timer it may hold. *)
Record Instance : Type := {
  state : State;
  timer : option (Callback * number);
  mounted : bool
}.

(** Commit of a render with state [s]: the previous cleanup has cleared
    the old timer, the effect runs on [s]. *)
Definition render (s : State) : Instance :=
  {| state := s;
     timer := match effect s with
              | Schedule cb d => Some (cb, d)
              | _ => None
              end;
     mounted := true |}.

(** Setup: first render and first effect run.  Nothing is checked. *)
Definition mount : result Instance := Ok (render initial).

(** Unmount runs the cleanup of the last effect: [clearTimeout]. *)
Definition unmount (i : Instance) : Instance :=
  {| state := state i; timer := None; mounted := false |}.

(** Time passes until the next thing happens: the pending timer fires,
    or, when the effect has set state itself, the component renders
    again.  An exception thrown by the callback is the outcome. *)
Definition advance (i : Instance) : result Instance :=
  match timer i with
  | Some (cb, _) =>
      match fire cb (state i) with
      | Ok s' =>
          Ok (if mounted i then render s'
              else {| state := s'; timer := None; mounted := false |})
      | Throw msg => Throw msg
      end
  | None =>
      if mounted i then
        match effect (state i) with
        | Update s' => Ok (render s')
        | _ => Ok i
        end
      else Ok i
  end.

(** The rendered strings over the first [n] transitions. *)
Fixpoint rendered (n : nat) (s : State) : list string :=
  match n with
  | O => [currentText s]
  | S n => currentText s ::
           match next_state s with
           | Ok s' => rendered n s'
           | Throw _ => []
           end
  end.

End WithProps.

End TypingAnimation.

(* ===================================================================== *)
(** ** useTilt *)
(* ===================================================================== *)

Module Tilt.

Record TiltOptions : Type := {
  max : number;
  scale : number;
  speed : number;
  glare : bool
}.

(** The defaults of the destructuring in [useTilt]. *)
Definition default_options : TiltOptions :=
  {| max := Fin 15; scale := Fin 1.05; speed := Fin 300; glare := true |}.

(** The fields of [getBoundingClientRect()] that the handler reads. *)
Record DOMRect : Type := {
  left : number;
  top : number;
  width : number;
  height : number
}.

Record MouseEvent : Type := {
  clientX : number;
  clientY : number
}.

(** [perspective(1000px) rotateX(..deg) rotateY(..deg) scale(..)]. *)
Record Transform : Type := {
  rotateX : number;
  rotateY : number;
  scaleBy : number
}.

Inductive Listener : Type := MouseMove | MouseLeave.

#[global] Instance Listener_eq_dec : EqDecision Listener.
Proof. solve_decision. Defined.

(** The element: the style properties the hook writes and the listeners
    registered on it. *)
Record Element : Type := {
  transform : option Transform;
  transition : option number;
  glare_x : option number;
  glare_y : option number;
  listeners : list Listener
}.

Definition blank : Element :=
  {| transform := None; transition := None;
     glare_x := None; glare_y := None; listeners := [] |}.

Section WithOptions.
Variable options : TiltOptions.

(** The rotation computed by [handleMouseMove]. *)
Definition rotation (rect : DOMRect) (e : MouseEvent) : number * number :=
  let x := (clientX e - left rect)%js in
  let y := (clientY e - top rect)%js in
  let centerX := (width rect / Fin 2)%js in
  let centerY := (height rect / Fin 2)%js in
  let rotateX := (((y - centerY) / centerY) * - max options)%js in
  let rotateY := (((x - centerX) / centerX) * max options)%js in
  (rotateX, rotateY).

Definition handleMouseMove (rect : DOMRect) (e : MouseEvent)
    (el : Element) : Element :=
  let x := (clientX e - left rect)%js in
  let y := (clientY e - top rect)%js in
  let '(rx, ry) := rotation rect e in
  let tr := {| rotateX := rx; rotateY := ry; scaleBy := scale options |} in
  if glare options then
    {| transform := Some tr; transition := transition el;
       glare_x := Some ((x / width rect) * Fin 100)%js;
       glare_y := Some ((y / height rect) * Fin 100)%js;
       listeners := listeners el |}
  else
    {| transform := Some tr; transition := transition el;
       glare_x := glare_x el; glare_y := glare_y el;
       listeners := listeners el |}.

Definition handleMouseLeave (el : Element) : Element :=
  let tr := {| rotateX := Fin 0; rotateY := Fin 0; scaleBy := Fin 1 |} in
  if glare options then
    {| transform := Some tr; transition := transition el;
       glare_x := Some (Fin 50); glare_y := Some (Fin 50);
       listeners := listeners el |}
  else
    {| transform := Some tr; transition := transition el;
       glare_x := glare_x el; glare_y := glare_y el;
       listeners := listeners el |}.

(** The effect of [useTilt]: nothing is attached when the ref is empty
    or under [prefers-reduced-motion]; otherwise the transition is set
    and both listeners are added. *)
Definition effect (prefersReducedMotion : bool)
    (el : option Element) : option Element :=
  match el with
  | None => None
  | Some el =>
      if prefersReducedMotion then Some el
      else Some {| transform := transform el;
                   transition := Some (speed options);
                   glare_x := glare_x el; glare_y := glare_y el;
                   listeners := listeners el ++ [MouseMove; MouseLeave] |}
  end.

Definition removeEventListener (l : Listener) (el : Element) : Element :=
  {| transform := transform el; transition := transition el;
     glare_x := glare_x el; glare_y := glare_y el;
     listeners := filter (fun l' => l' <> l) (listeners el) |}.

(** The cleanup the effect returns when it did attach. *)
Definition cleanup (el : Element) : Element :=
  removeEventListener MouseLeave (removeEventListener MouseMove el).

Definition unmount (prefersReducedMotion : bool)
    (el : option Element) : option Element :=
  match el with
  | None => None
  | Some el => if prefersReducedMotion then Some el else Some (cleanup el)
  end.

(** Delivery of a mouse event to the element: only registered listeners
    run. *)
Definition dispatch (l : Listener) (rect : DOMRect) (e : MouseEvent)
    (el : Element) : Element :=
  if bool_decide (l ∈ listeners el) then
    match l with
    | MouseMove => handleMouseMove rect e el
    | MouseLeave => handleMouseLeave el
    end
  else el.

End WithOptions.

End Tilt.

(* ===================================================================== *)
(** ** ThemeProvider and useTheme *)
(* ===================================================================== *)

Module Theme.

(** The TypeScript type ['light' | 'dark']. *)
Inductive Theme : Type := light | dark.

(** The string a [Theme] is at run time.  A state cell of type [Theme]
    holds a string: the value read back from storage is cast, not parsed. *)
Definition theme_str (t : Theme) : string :=
  match t with light => "light" | dark => "dark" end.

(** Calls made to the platform. *)
Inductive Call : Type :=
| GetItem (key : string)
| SetItem (key value : string)
| MatchMedia (query : string)
| ClassAdd (cls : string)
| ClassRemove (cls : string).

(** The platform: [localStorage], the color-scheme media query, the class
    list of the root element, and the calls made so far. *)
Record Env : Type := {
  localStorage : gmap string string;
  prefersDark : bool;
  classList : gset string;
  calls : list Call
}.

(** Code that talks to the platform. *)
Definition M (A : Type) : Type := Env -> A * Env.
Definition ret {A} (a : A) : M A := fun e => (a, e).
Definition bind {A B} (m : M A) (k : A -> M B) : M B :=
  fun e => let '(a, e') := m e in k a e'.

Notation "'do' x <- m ; k" := (bind m (fun x => k))
  (at level 10, x name, m at level 100, k at level 200).
Notation "'run' m ; k" := (bind m (fun _ => k))
  (at level 10, m at level 100, k at level 200).

Definition log (c : Call) (e : Env) : Env :=
  {| localStorage := localStorage e; prefersDark := prefersDark e;
     classList := classList e; calls := calls e ++ [c] |}.

Definition getItem (key : string) : M (option string) :=
  fun e => (localStorage e !! key, log (GetItem key) e).

Definition setItem (key value : string) : M unit :=
  fun e => (tt, log (SetItem key value)
                  {| localStorage := <[key := value]> (localStorage e);
                     prefersDark := prefersDark e;
                     classList := classList e; calls := calls e |}).

Definition matchMedia (query : string) : M bool :=
  fun e => (prefersDark e, log (MatchMedia query) e).

Definition classList_add (cls : string) : M unit :=
  fun e => (tt, log (ClassAdd cls)
                  {| localStorage := localStorage e;
                     prefersDark := prefersDark e;
                     classList := {[cls]} ∪ classList e; calls := calls e |}).

Definition classList_remove (cls : string) : M unit :=
  fun e => (tt, log (ClassRemove cls)
                  {| localStorage := localStorage e;
                     prefersDark := prefersDark e;
                     classList := classList e ∖ {[cls]}; calls := calls e |}).

(** The provider's two state cells. *)
Record ProviderState : Type := {
  theme : string;
  mounted : bool
}.

Definition initial : ProviderState := {| theme := "light"; mounted := false |}.

Definition setThemeState (t : string) (p : ProviderState) : ProviderState :=
  {| theme := t; mounted := mounted p |}.
Definition setMounted (b : bool) (p : ProviderState) : ProviderState :=
  {| theme := theme p; mounted := b |}.

Definition applyTheme (newTheme : string) : M unit :=
  if bool_decide (newTheme = "dark") then classList_add "dark"
  else classList_remove "dark".

(** Truthiness of [localStorage.getItem(..)]: [null] and the empty string
    are falsy. *)
Definition truthy (stored : option string) : option string :=
  match stored with
  | Some s => if bool_decide (s = "") then None else Some s
  | None => None
  end.

(** The mount effect of [ThemeProvider]. *)
Definition init (p : ProviderState) : M ProviderState :=
  let p := setMounted true p in
  do stored <- getItem "theme";
  match truthy stored with
  | Some stored =>
      run applyTheme stored;
      ret (setThemeState stored p)
  | None =>
      do prefersDark <- matchMedia "(prefers-color-scheme: dark)";
      let initialTheme := if prefersDark then "dark" else "light" in
      run applyTheme initialTheme;
      ret (setThemeState initialTheme p)
  end.

Definition setTheme (newTheme : Theme) (p : ProviderState) : M ProviderState :=
  run setItem "theme" (theme_str newTheme);
  run applyTheme (theme_str newTheme);
  ret (setThemeState (theme_str newTheme) p).

Definition toggleTheme (p : ProviderState) : M ProviderState :=
  let newTheme := if bool_decide (theme p = "light") then dark else light in
  setTheme newTheme p.

(** The value handed to [ThemeContext.Provider]. *)
Record ThemeContextType : Type := {
  ctx_theme : string;
  ctx_toggleTheme : M ProviderState;
  ctx_setTheme : Theme -> M ProviderState
}.

(** What the provider renders: nothing until mounted, then its children
    under a context value. *)
Definition ThemeProvider (p : ProviderState) : option ThemeContextType :=
  if negb (mounted p) then None
  else Some {| ctx_theme := theme p;
               ctx_toggleTheme := toggleTheme p;
               ctx_setTheme := fun t => setTheme t p |}.

(** [useTheme]: [context] is what [useContext(ThemeContext)] returned,
    [None] standing for [undefined], the default of the context. *)
Definition useTheme (context : option ThemeContextType)
    : result ThemeContextType :=
  match context with
  | None => Throw "useTheme must be used within a ThemeProvider"
  | Some context => Ok context
  end.

(** A new page load: the persisted store survives, everything else is
    new. *)
Definition reload (e : Env) (systemPrefersDark : bool) : Env :=
  {| localStorage := localStorage e; prefersDark := systemPrefersDark;
     classList := ∅; calls := [] |}.

End Theme.

(* ===================================================================== *)
(** * Vocabulary of the properties *)
(* ===================================================================== *)

(** The invariant of the typing machine: the index is in range and the
    rendered string is a prefix of the string at that index. *)
Definition typing_inv (props : TypingAnimation.Props)
    (s : TypingAnimation.State) : Prop :=
  exists full,
    TypingAnimation.texts props !! TypingAnimation.currentTextIndex s
      = Some full
    /\ String.prefix (TypingAnimation.currentText s) full = true.

(** Setup reports an error to the caller. *)
Definition typing_rejected (props : TypingAnimation.Props) : Prop :=
  exists msg, TypingAnimation.mount props = Throw msg.

(** Setup succeeds and leaves a timer pending. *)
Definition typing_timer_started (props : TypingAnimation.Props) : Prop :=
  exists i cb d, TypingAnimation.mount props = Ok i
                 /\ TypingAnimation.timer i = Some (cb, d).

(** The props of the documented test: two strings, no delays. *)
Definition typing_demo : TypingAnimation.Props :=
  {| TypingAnimation.texts := ["A"; "BB"];
     TypingAnimation.typingSpeed := Fin 0;
     TypingAnimation.deletingSpeed := Fin 0;
     TypingAnimation.pauseDuration := Fin 0 |}.

(** In that run: the first string typed in full, and the same state once
    deletion has begun. *)
Definition typing_demo_typed : TypingAnimation.State :=
  TypingAnimation.setCurrentText "A" TypingAnimation.initial.

Definition typing_demo_deleting : TypingAnimation.State :=
  TypingAnimation.setIsDeleting true typing_demo_typed.

(** An empty list with the default timings. *)
Definition typing_empty : TypingAnimation.Props :=
  {| TypingAnimation.texts := [];
     TypingAnimation.typingSpeed := Fin 100;
     TypingAnimation.deletingSpeed := Fin 50;
     TypingAnimation.pauseDuration := Fin 2000 |}.

(** The ease-out curve on exact rationals: [t * (2 - t)]. *)
Definition ease_out (t : Q) : Q := (t * (2 - t))%Q.


(** The loop started at [startTime] goes on after a frame at [t]. *)
Definition loop_continues (props : AnimatedCounter.Props)
    (startTime t : Z) : bool :=
  (of_Z t <? of_Z startTime + AnimatedCounter.duration props)%js.

(** The count such a frame writes before it tests [endTime]. *)
Definition eased_count (props : AnimatedCounter.Props)
    (startTime t : Z) : number :=
  floor (AnimatedCounter.easeOutQuad
           (min ((of_Z t - of_Z startTime)
                 / AnimatedCounter.duration props)%js (Fin 1))
         * AnimatedCounter.end_ props)%js.

(** The count a frame at [t] leaves behind. *)
Definition frame_count (props : AnimatedCounter.Props)
    (startTime t : Z) : number :=
  if loop_continues props startTime t
  then eased_count props startTime t
  else AnimatedCounter.end_ props.

(** Setup of the counter reports an error to the caller. *)
Definition counter_rejected (props : AnimatedCounter.Props) : Prop :=
  exists msg, AnimatedCounter.mount props = Throw msg.

(** Setup succeeds and the first intersecting entry, at time [now],
    leaves a frame callback pending. *)
Definition counter_loop_started (props : AnimatedCounter.Props)
    (now : Z) : Prop :=
  exists c0, AnimatedCounter.mount props = Ok c0
             /\ AnimatedCounter.frames
                  (AnimatedCounter.intersect [true] now c0) <> [].

(** The counter of the documented test. *)
Definition counter_demo : AnimatedCounter.Props :=
  {| AnimatedCounter.end_ := Fin 1000;
     AnimatedCounter.duration := Fin 2000 |}.

(** An angle lies within the configured maximum tilt, either way. *)
Definition within_tilt (options : Tilt.TiltOptions) (a : number) : Prop :=
  (- Tilt.max options <=? a)%js = true
  /\ (a <=? Tilt.max options)%js = true.

(** A square element of side 100 at the origin, and a pointer position to
    the right of it (as for an event that bubbles from an overflowing
    child). *)
Definition tilt_rect : Tilt.DOMRect :=
  {| Tilt.left := Fin 0; Tilt.top := Fin 0;
     Tilt.width := Fin 100; Tilt.height := Fin 100 |}.

Definition tilt_outside : Tilt.MouseEvent :=
  {| Tilt.clientX := Fin 200; Tilt.clientY := Fin 50 |}.

(** A pointer position inside that element. *)
Definition tilt_inside : Tilt.MouseEvent :=
  {| Tilt.clientX := Fin 25; Tilt.clientY := Fin 75 |}.

(* ===================================================================== *)
(** ** ThemeToggle (tailwind system), the consumer of [useTheme] *)
(* ===================================================================== *)

Module ThemeToggle.

Inductive Icon : Type := Moon | Sun.

(** What the button shows and does: the rotation of the animated
    wrapper, the icon, and the click handler. *)
Record View : Type := {
  rotate : number;
  icon : Icon;
  onClick : Theme.M Theme.ProviderState
}.

Definition ThemeToggle (context : option Theme.ThemeContextType)
    : result View :=
  match Theme.useTheme context with
  | Throw msg => Throw msg
  | Ok ctx =>
      Ok {| rotate := if bool_decide (Theme.ctx_theme ctx = "dark")
                      then Fin 180 else Fin 0;
            icon := if bool_decide (Theme.ctx_theme ctx = "light")
                    then Moon else Sun;
            onClick := Theme.ctx_toggleTheme ctx |}
  end.

End ThemeToggle.

(* ===================================================================== *)
(** * Vocabulary of the further properties *)
(* ===================================================================== *)

Definition other_theme (t : Theme.Theme) : Theme.Theme :=
  match t with Theme.light => Theme.dark | Theme.dark => Theme.light end.

(** State, persisted value and root class all say [t]. *)
Definition theme_synced (p : Theme.ProviderState) (env : Theme.Env)
    (t : Theme.Theme) : Prop :=
  Theme.theme p = Theme.theme_str t
  /\ Theme.localStorage env !! "theme" = Some (Theme.theme_str t)
  /\ ("dark" ∈ Theme.classList env <-> t = Theme.dark).

(** A call made by a consumer of the context. *)
Inductive ThemeOp : Type :=
| OpSetTheme (t : Theme.Theme)
| OpToggleTheme.

Definition theme_op (op : ThemeOp) (p : Theme.ProviderState)
    : Theme.M Theme.ProviderState :=
  match op with
  | OpSetTheme t => Theme.setTheme t p
  | OpToggleTheme => Theme.toggleTheme p
  end.

(** A sequence of such calls with a render between any two of them (as
    for separate clicks): each call is made through the context value
    rendered from the state the previous call left. *)
Fixpoint theme_ops (ops : list ThemeOp) (p : Theme.ProviderState)
    : Theme.M Theme.ProviderState :=
  match ops with
  | [] => Theme.ret p
  | op :: ops => Theme.bind (theme_op op p) (theme_ops ops)
  end.

(** The theme such a sequence ends in, from theme [t]. *)
Definition theme_after (ops : list ThemeOp) (t : Theme.Theme) : Theme.Theme :=
  fold_left (fun t op => match op with
                         | OpSetTheme t' => t'
                         | OpToggleTheme => other_theme t
                         end) ops t.

(** The counter right after the first visibility signal at [startTime],
    and the counter once its loop has finished. *)
Definition counter_started (startTime : Z) : AnimatedCounter.Instance :=
  {| AnimatedCounter.count := Fin 0;
     AnimatedCounter.hasAnimated := true;
     AnimatedCounter.observer := None;
     AnimatedCounter.frames := [startTime] |}.

Definition counter_done (props : AnimatedCounter.Props)
    : AnimatedCounter.Instance :=
  {| AnimatedCounter.count := AnimatedCounter.end_ props;
     AnimatedCounter.hasAnimated := true;
     AnimatedCounter.observer := None;
     AnimatedCounter.frames := [] |}.

(** The instance after a sequence of animation frames. *)
Definition counter_frames (props : AnimatedCounter.Props)
    (times : list Z) (c : AnimatedCounter.Instance)
    : AnimatedCounter.Instance :=
  fold_left (fun c t => AnimatedCounter.frame props t c) times c.

(** A duration with which the loop cannot run: NaN, -Infinity, or a
    finite value that is not positive. *)
Definition degenerate_duration (d : number) : Prop :=
  match d with
  | Fin q => (q <= 0)%Q
  | PInf => False
  | NInf | NaN => True
  end.

(** The typing machine after [n] transitions. *)
Fixpoint typing_run (props : TypingAnimation.Props) (n : nat)
    (s : TypingAnimation.State) : result TypingAnimation.State :=
  match n with
  | O => Ok s
  | S n =>
      match TypingAnimation.next_state props s with
      | Ok s' => typing_run props n s'
      | Throw msg => Throw msg
      end
  end.

(** The state in which the machine begins on string number [i], and the
    states in which it has typed, or is deleting down to, the first [k]
    characters of [t]. *)
Definition typing_at (i : nat) : TypingAnimation.State :=
  {| TypingAnimation.currentTextIndex := i;
     TypingAnimation.currentText := "";
     TypingAnimation.isDeleting := false;
     TypingAnimation.isPaused := false |}.

Definition typing_prefix (i k : nat) (t : string) (deleting : bool)
    : TypingAnimation.State :=
  {| TypingAnimation.currentTextIndex := i;
     TypingAnimation.currentText := String.substring 0 k t;
     TypingAnimation.isDeleting := deleting;
     TypingAnimation.isPaused := false |}.

(** A mouse event as the browser delivers it: its kind, the element's box
    at that moment, and the pointer position. *)
Definition TiltEvent : Type :=
  (Tilt.Listener * Tilt.DOMRect * Tilt.MouseEvent)%type.

(** Delivery of a sequence of mouse events, in order. *)
Definition tilt_events (options : Tilt.TiltOptions)
    (evs : list TiltEvent) (el : Tilt.Element) : Tilt.Element :=
  fold_left (fun el '(l, rect, e) => Tilt.dispatch options l rect e el)
            evs el.

(** The transform written on mouse leave. *)
Definition tilt_identity : Tilt.Transform :=
  {| Tilt.rotateX := Fin 0; Tilt.rotateY := Fin 0; Tilt.scaleBy := Fin 1 |}.

(** An element box with no width. *)
Definition tilt_flat_rect : Tilt.DOMRect :=
  {| Tilt.left := Fin 10; Tilt.top := Fin 10;
     Tilt.width := Fin 0; Tilt.height := Fin 100 |}.

(** A platform with nothing stored, and a mounted provider in dark
    mode. *)
Definition theme_blank_env : Theme.Env :=
  {| Theme.localStorage := ∅; Theme.prefersDark := false;
     Theme.classList := ∅; Theme.calls := [] |}.

Definition theme_dark_provider : Theme.ProviderState :=
  {| Theme.theme := "dark"; Theme.mounted := true |}.

(** A platform whose store holds a value that is no theme. *)
Definition theme_blue_env : Theme.Env :=
  {| Theme.localStorage := {["theme" := "blue"]};
     Theme.prefersDark := true;
     Theme.classList := ∅; Theme.calls := [] |}.

(** A platform whose store holds the empty string, on a dark system. *)
Definition theme_empty_env : Theme.Env :=
  {| Theme.localStorage := {["theme" := ""]};
     Theme.prefersDark := true;
     Theme.classList := ∅; Theme.calls := [] |}.

(** The theme the system preference stands for. *)
Definition system_theme (prefersDark : bool) : string :=
  if prefersDark then "dark" else "light".

(* ===================================================================== *)
(** ** JavaScript numbers in binary64 *)
(* ===================================================================== *)

(** The numbers of the source as IEEE 754 binary64 values, every operation
    correctly rounded (to nearest, ties to even), with signed zeros, both
    infinities and NaN.  [JsNum] above idealises finite values as exact
    rationals; it serves for bounds and orderings that rounding preserves.
    What the counter displays digit for digit depends on the rounding and
    is computed here. *)
Module Binary64.

Definition number : Type := SpecFloat.spec_float.

Definition prec : Z := 53.
Definition emax : Z := 1024.

(** An integer as a number (exact below 2^53, as clock values are). *)
Definition of_Z (z : Z) : number :=
  SpecFloat.binary_normalize prec emax z 0 false.

Definition add (a b : number) : number := SpecFloat.SFadd prec emax a b.
Definition sub (a b : number) : number := SpecFloat.SFsub prec emax a b.
Definition mul (a b : number) : number := SpecFloat.SFmul prec emax a b.
Definition div (a b : number) : number := SpecFloat.SFdiv prec emax a b.

(** [a < b] and [a <= b]: false as soon as one side is NaN. *)
Definition lt (a b : number) : bool := SpecFloat.SFltb a b.
Definition le (a b : number) : bool := SpecFloat.SFleb a b.

(** [Math.min] on two arguments: NaN if either is, and [-0] below [+0]. *)
Definition min (a b : number) : number :=
  match a, b with
  | SpecFloat.S754_nan, _ | _, SpecFloat.S754_nan => SpecFloat.S754_nan
  | _, _ =>
      if lt a b then a
      else if lt b a then b
      else match a with
           | SpecFloat.S754_zero true => a
           | _ => b
           end
  end.

(** [Math.floor]: the value [m * 2^e] with [e < 0] is cut at the binary
    point, downwards; zeros, infinities, NaN and integers are kept. *)
Definition floor (a : number) : number :=
  match a with
  | SpecFloat.S754_finite s m e =>
      if 0 <=? e then a
      else
        let q := Z.shiftr (Zpos m) (- e) in
        let exact := Z.shiftl q (- e) =? Zpos m in
        let z := if s then (if exact then - q else - (q + 1)) else q in
        if z =? 0 then SpecFloat.S754_zero s else of_Z z
  | _ => a
  end.

End Binary64.

(* ===================================================================== *)
(** ** The frame loop of AnimatedCounter in binary64 *)
(* ===================================================================== *)

(** [updateCounter] and the frame loop again, expression for expression,
    on binary64 numbers. *)
Module AnimatedCounter64.

Record Props : Type := {
  end_ : Binary64.number;
  duration : Binary64.number
}.

(** What the loop touches: the count cell and the pending frame
    callbacks, each identified by its [startTime]. *)
Record Loop : Type := {
  count : Binary64.number;
  frames : list Z
}.

Definition setCount (v : Binary64.number) (c : Loop) : Loop :=
  {| count := v; frames := frames c |}.

Definition requestAnimationFrame (startTime : Z) (c : Loop) : Loop :=
  {| count := count c; frames := frames c ++ [startTime] |}.

Definition easeOutQuad (t : Binary64.number) : Binary64.number :=
  Binary64.mul t (Binary64.sub (Binary64.of_Z 2) t).

(** The loop right after [animateCounter] ran at [startTime]. *)
Definition started (startTime : Z) : Loop :=
  {| count := Binary64.of_Z 0; frames := [startTime] |}.

Section WithProps.
Variable props : Props.

Definition updateCounter (startTime now : Z) (c : Loop) : Loop :=
  let endTime := Binary64.add (Binary64.of_Z startTime) (duration props) in
  let progress :=
    Binary64.min
      (Binary64.div
         (Binary64.sub (Binary64.of_Z now) (Binary64.of_Z startTime))
         (duration props))
      (Binary64.of_Z 1) in
  let easedProgress := easeOutQuad progress in
  let currentCount :=
    Binary64.floor (Binary64.mul easedProgress (end_ props)) in
  let c := setCount currentCount c in
  if Binary64.lt (Binary64.of_Z now) endTime
  then requestAnimationFrame startTime c
  else setCount (end_ props) c.

Definition frame (now : Z) (c : Loop) : Loop :=
  fold_left (fun c startTime => updateCounter startTime now c)
            (frames c) {| count := count c; frames := [] |}.

Fixpoint displayed (times : list Z) (c : Loop) : list Binary64.number :=
  match times with
  | [] => []
  | t :: times => let c' := frame t c in count c' :: displayed times c'
  end.

End WithProps.

End AnimatedCounter64.

(* ===================================================================== *)
(** * Vocabulary of the counter properties in binary64 *)
(* ===================================================================== *)

(** The count a frame writes before it tests [endTime], in binary64. *)
Definition eased_count64 (props : AnimatedCounter64.Props)
    (startTime now : Z) : Binary64.number :=
  Binary64.floor
    (Binary64.mul
       (AnimatedCounter64.easeOutQuad
          (Binary64.min
             (Binary64.div
                (Binary64.sub (Binary64.of_Z now) (Binary64.of_Z startTime))
                (AnimatedCounter64.duration props))
             (Binary64.of_Z 1)))
       (AnimatedCounter64.end_ props)).

(** [endTime] as the code computes it. *)
Definition endTime64 (props : AnimatedCounter64.Props)
    (startTime : Z) : Binary64.number :=
  Binary64.add (Binary64.of_Z startTime) (AnimatedCounter64.duration props).

(** A duration a hair above 3000 ms: [0.1 * 3 * 10000] in binary64, which
    is 3000.0000000000005. *)
Definition duration_over_3000 : Binary64.number :=
  Binary64.mul
    (Binary64.mul (Binary64.div (Binary64.of_Z 1) (Binary64.of_Z 10))
                  (Binary64.of_Z 3))
    (Binary64.of_Z 10000).

Definition counter64_over_3000 : AnimatedCounter64.Props :=
  {| AnimatedCounter64.end_ := Binary64.of_Z 1000;
     AnimatedCounter64.duration := duration_over_3000 |}.

(** The documented counter, and one that takes 10^9 ms. *)
Definition counter64_demo : AnimatedCounter64.Props :=
  {| AnimatedCounter64.end_ := Binary64.of_Z 1000;
     AnimatedCounter64.duration := Binary64.of_Z 2000 |}.




(** Calls that are all made through the context value of one render:
    each closes over the provider state [p] of that render, and the state
    cell ends up holding what the last call set ([current] until then). *)
Fixpoint theme_ops_one_render (ops : list ThemeOp)
    (p current : Theme.ProviderState) : Theme.M Theme.ProviderState :=
  match ops with
  | [] => Theme.ret current
  | op :: ops =>
      Theme.bind (theme_op op p) (fun p' => theme_ops_one_render ops p p')
  end.

(** The theme such a batch ends in, from theme [t]: the last call
    decides, and a toggle means the other theme than [t]. *)
Definition theme_after_one_render (ops : list ThemeOp) (t : Theme.Theme)
    : Theme.Theme :=
  fold_left (fun _ op => match op with
                         | OpSetTheme t' => t'
                         | OpToggleTheme => other_theme t
                         end) ops t.

(* ===================================================================== *)
(** * Properties *)
(* ===================================================================== *)

(** ** Strings *)

Section StringFacts.

Lemma prefix_empty (s : string) : String.prefix "" s = true.
Proof. destruct s; reflexivity. Qed.

Lemma prefix_substring (n : nat) (s : string) :
  String.prefix (String.substring 0 n s) s = true.
Proof.
  revert n; induction s as [|c s IH]; intros [|n]; simpl; auto.
  destruct (Ascii.ascii_dec c c); [apply IH | congruence].
Qed.

Lemma length_substring (n : nat) (s : string) :
  String.length (String.substring 0 n s) = Nat.min n (String.length s).
Proof.
  revert n; induction s as [|c s IH]; intros [|n]; simpl; auto.
Qed.

Lemma prefix_trans (a b c : string) :
  String.prefix a b = true -> String.prefix b c = true ->
  String.prefix a c = true.
Proof.
  revert b c; induction a as [|x a IH]; intros b c Hab Hbc.
  - apply prefix_empty.
  - destruct b as [|y b]; [discriminate|].
    destruct c as [|z c]; [discriminate|].
    simpl in *.
    destruct (Ascii.ascii_dec x y); [subst y|discriminate].
    destruct (Ascii.ascii_dec x z); [|discriminate].
    eapply IH; eauto.
Qed.

Lemma prefix_length (a b : string) :
  String.prefix a b = true -> (String.length a <= String.length b)%nat.
Proof.
  revert b; induction a as [|x a IH]; intros [|y b] H; simpl in *;
    try lia; try discriminate.
  destruct (Ascii.ascii_dec x y); [|discriminate].
  apply IH in H. lia.
Qed.

Lemma prefix_same_length (a b : string) :
  String.prefix a b = true -> String.length a = String.length b -> a = b.
Proof.
  revert b; induction a as [|x a IH]; intros [|y b] H L; simpl in *;
    try discriminate; auto.
  destruct (Ascii.ascii_dec x y); [subst y|discriminate].
  f_equal. apply IH; auto.
Qed.

Lemma prefix_proper_length (a b : string) :
  String.prefix a b = true -> a <> b ->
  (String.length a < String.length b)%nat.
Proof.
  intros H Hne. pose proof (prefix_length _ _ H) as Hle.
  destruct (Nat.eq_dec (String.length a) (String.length b)) as [E|E];
    [|lia].
  exfalso. apply Hne. now apply prefix_same_length.
Qed.

(** [s.slice(0, k)] for a count [k]. *)
Lemma slice_take (s : string) (k : nat) :
  slice s 0 (Z.of_nat k)
  = String.substring 0 (Nat.min k (String.length s)) s.
Proof.
  unfold slice, clamp_index.
  replace (0 <? 0) with false by reflexivity.
  destruct (Z.ltb_spec (Z.of_nat k) 0) as [?|_]; [lia|].
  replace (Z.to_nat (Z.min 0 (Z.of_nat (String.length s)))) with 0%nat by lia.
  f_equal. lia.
Qed.

(** [s.slice(0, -1)]. *)
Lemma slice_drop_last (s : string) :
  slice s 0 (-1) = String.substring 0 (String.length s - 1) s.
Proof.
  unfold slice, clamp_index.
  replace (0 <? 0) with false by reflexivity.
  replace (-1 <? 0) with true by reflexivity.
  replace (Z.to_nat (Z.min 0 (Z.of_nat (String.length s)))) with 0%nat by lia.
  f_equal. lia.
Qed.

End StringFacts.

(** ** TypingAnimation *)

Section TypingFacts.
Import TypingAnimation.
Variable props : Props.

Lemma typing_inv_initial : texts props <> [] -> typing_inv props initial.
Proof.
  intros Hne. destruct (texts props) as [|t ts] eqn:E; [congruence|].
  exists t. unfold initial; simpl. rewrite E. split; [reflexivity|].
  apply prefix_empty.
Qed.

Lemma typing_step_grows (s : State) full :
  texts props !! currentTextIndex s = Some full ->
  String.prefix (currentText s) full = true ->
  currentText s <> full ->
  let t := slice full 0 (Z.of_nat (String.length (currentText s)) + 1) in
  String.prefix t full = true
  /\ String.length t = S (String.length (currentText s)).
Proof.
  intros Hl Hp Hne t.
  pose proof (prefix_proper_length _ _ Hp Hne) as Hlt.
  subst t.
  replace (Z.of_nat (String.length (currentText s)) + 1)
    with (Z.of_nat (S (String.length (currentText s)))) by lia.
  rewrite slice_take. split.
  - apply prefix_substring.
  - rewrite length_substring. lia.
Qed.

Lemma deleting_step_shrinks (cur : string) :
  cur <> "" ->
  String.prefix (slice cur 0 (-1)) cur = true
  /\ S (String.length (slice cur 0 (-1))) = String.length cur.
Proof.
  intros Hne. rewrite slice_drop_last. split.
  - apply prefix_substring.
  - rewrite length_substring. destruct cur; [congruence|]. simpl. lia.
Qed.

Lemma typing_inv_next (s s' : State) :
  texts props <> [] -> typing_inv props s -> next_state props s = Ok s' ->
  typing_inv props s'.
Proof.
  intros Hne (full & Hl & Hp) Hn.
  unfold next_state, effect in Hn. rewrite Hl in Hn.
  destruct (isPaused s) eqn:Ep.
  { simpl in Hn. inversion Hn; subst. exists full. cbn. auto. }
  destruct (isDeleting s) eqn:Ed; simpl in Hn.
  - case_bool_decide as Ee; simpl in Hn.
    + inversion Hn; subst; clear Hn. unfold typing_inv; cbn.
      assert (Hlt : ((currentTextIndex s + 1) `mod` length (texts props)
                     < length (texts props))%nat).
      { apply Nat.mod_upper_bound. destruct (texts props); simpl; [congruence|lia]. }
      apply lookup_lt_is_Some in Hlt. destruct Hlt as [f' Hf'].
      exists f'. split; [exact Hf'|]. rewrite Ee. apply prefix_empty.
    + inversion Hn; subst; clear Hn. unfold typing_inv; cbn.
      exists full. split; [exact Hl|].
      destruct (deleting_step_shrinks _ Ee) as [Hpre _].
      eapply prefix_trans; eauto.
  - case_bool_decide as Ee; simpl in Hn.
    + inversion Hn; subst. exists full. cbn. auto.
    + inversion Hn; subst; clear Hn. unfold typing_inv; cbn.
      exists full. split; [exact Hl|].
      assert (Hne' : currentText s <> full) by congruence.
      apply (typing_step_grows s full Hl Hp Hne').
Qed.

Lemma typing_inv_reachable (s : State) :
  texts props <> [] -> reachable props s -> typing_inv props s.
Proof.
  intros Hne Hr. induction Hr as [|s s' _ IH Hn].
  - now apply typing_inv_initial.
  - eapply typing_inv_next; eauto.
Qed.

(** The documented run on ["A"; "BB"]: type, pause, delete, advance. *)
Example typing_demo_run :
  rendered typing_demo 11 initial
  = [""; "A"; "A"; "A"; ""; ""; "B"; "BB"; "BB"; "BB"; "B"; ""].
Proof. reflexivity. Qed.

(** After unmount no timer is pending and the passing of time changes
    nothing. *)
Lemma typing_teardown (i : Instance) :
  timer (unmount i) = None /\ advance props (unmount i) = Ok (unmount i).
Proof. split; reflexivity. Qed.

(** With an empty list the only timer ever registered throws when it
    fires. *)
Lemma typing_empty_timer_throws :
  texts props = [] -> exists msg, advance props (render props initial) = Throw msg.
Proof.
  intros E. unfold advance, render, effect; cbn. rewrite E; cbn. eauto.
Qed.

End TypingFacts.

(** C5. For a non-empty list, in every state reachable from the initial
    one (index 0, empty string) the rendered string is a prefix of the
    string at the current index; the transition made by a typing timer
    exists and lengthens the rendered string by exactly one character,
    and the transition made by a deleting timer exists and shortens it by
    exactly one. *)
Theorem typing_prefix_invariant
    (props : TypingAnimation.Props) (s : TypingAnimation.State) :
  TypingAnimation.texts props <> [] ->
  TypingAnimation.reachable props s ->
  (exists full,
      TypingAnimation.texts props !! TypingAnimation.currentTextIndex s
        = Some full
      /\ String.prefix (TypingAnimation.currentText s) full = true)
  /\ (forall full cur d,
        TypingAnimation.effect props s
          = TypingAnimation.Schedule (TypingAnimation.TypeTimeout full cur) d ->
        exists s', TypingAnimation.next_state props s = Ok s'
          /\ String.length (TypingAnimation.currentText s')
             = S (String.length (TypingAnimation.currentText s)))
  /\ (forall cur d,
        TypingAnimation.effect props s
          = TypingAnimation.Schedule (TypingAnimation.DeleteTimeout cur) d ->
        exists s', TypingAnimation.next_state props s = Ok s'
          /\ S (String.length (TypingAnimation.currentText s'))
             = String.length (TypingAnimation.currentText s)).
Proof.
  intros Hne Hr.
  pose proof (typing_inv_reachable props s Hne Hr) as Hinv.
  split; [exact Hinv|].
  destruct Hinv as (full & Hl & Hp).
  split.
  - intros f cur d He. unfold TypingAnimation.next_state. rewrite He.
    unfold TypingAnimation.effect in He. rewrite Hl in He.
    destruct (TypingAnimation.isPaused s); [discriminate|].
    destruct (TypingAnimation.isDeleting s); cbn in He.
    + case_bool_decide; discriminate.
    + case_bool_decide as Ee; cbn in He; [discriminate|].
      inversion He; subst; clear He. cbn.
      eexists; split; [reflexivity|]. cbn.
      assert (Hne' : TypingAnimation.currentText s <> full) by congruence.
      apply (typing_step_grows props s full Hl Hp Hne').
  - intros cur d He. unfold TypingAnimation.next_state. rewrite He.
    unfold TypingAnimation.effect in He. rewrite Hl in He.
    destruct (TypingAnimation.isPaused s); [discriminate|].
    destruct (TypingAnimation.isDeleting s); cbn in He.
    + case_bool_decide as Ee; cbn in He; [discriminate|].
      inversion He; subst; clear He. cbn.
      eexists; split; [reflexivity|]. cbn.
      apply (deleting_step_shrinks _ Ee).
    + case_bool_decide; discriminate.
Qed.

Lemma typing_prefix_invariant_witness :
  TypingAnimation.texts typing_demo <> []
  /\ TypingAnimation.reachable typing_demo typing_demo_deleting
  /\ (exists full,
        TypingAnimation.texts typing_demo
          !! TypingAnimation.currentTextIndex typing_demo_deleting
          = Some full
        /\ String.prefix
             (TypingAnimation.currentText typing_demo_deleting) full = true)
  /\ (exists s',
        TypingAnimation.next_state typing_demo TypingAnimation.initial = Ok s'
        /\ String.length (TypingAnimation.currentText s') = 1%nat)
  /\ (exists s',
        TypingAnimation.next_state typing_demo typing_demo_deleting = Ok s'
        /\ S (String.length (TypingAnimation.currentText s')) = 1%nat).
Proof.
  assert (Hne : TypingAnimation.texts typing_demo <> []) by discriminate.
  assert (Hr : TypingAnimation.reachable typing_demo typing_demo_deleting).
  { apply (TypingAnimation.reach_next typing_demo
             (TypingAnimation.setIsPaused true typing_demo_typed));
      [|reflexivity].
    apply (TypingAnimation.reach_next typing_demo typing_demo_typed);
      [|reflexivity].
    apply (TypingAnimation.reach_next typing_demo TypingAnimation.initial);
      [|reflexivity].
    constructor. }
  split; [exact Hne|]. split; [exact Hr|]. split; [|split].
  - exact (proj1 (typing_prefix_invariant typing_demo
                    typing_demo_deleting Hne Hr)).
  - exact (proj1 (proj2 (typing_prefix_invariant typing_demo
                           TypingAnimation.initial Hne
                           (TypingAnimation.reach_initial typing_demo)))
             (Some "A") "" (Fin 0) eq_refl).
  - exact (proj2 (proj2 (typing_prefix_invariant typing_demo
                           typing_demo_deleting Hne Hr))
             "A" (Fin 0) eq_refl).
Defined.

(** C4, as stated, fails: an empty list is not rejected at setup, and
    setup leaves a timer pending. *)
Lemma typing_empty_counterexample :
  ~ typing_rejected typing_empty /\ typing_timer_started typing_empty.
Proof.
  split.
  - intros [msg H]. discriminate H.
  - eexists _, _, _. split; reflexivity.
Qed.

(** C4, amended. Given an empty list the animator reports no error: setup
    succeeds in the initial state with one typing timer registered (its
    target string undefined), and the machine never leaves the initial
    state, so nothing cycles. *)
Theorem typing_empty_setup (props : TypingAnimation.Props) :
  TypingAnimation.texts props = [] ->
  exists i,
    TypingAnimation.mount props = Ok i
    /\ TypingAnimation.state i = TypingAnimation.initial
    /\ TypingAnimation.timer i
       = Some (TypingAnimation.TypeTimeout None "",
               TypingAnimation.typingSpeed props)
    /\ forall s, TypingAnimation.reachable props s ->
                 s = TypingAnimation.initial.
Proof.
  intros E. eexists. split; [reflexivity|].
  split; [reflexivity|]. split.
  - unfold TypingAnimation.render, TypingAnimation.effect; cbn.
    rewrite E; reflexivity.
  - intros s Hr. induction Hr as [|s s' _ IH Hn]; [reflexivity|].
    subst s. unfold TypingAnimation.next_state, TypingAnimation.effect in Hn.
    cbn in Hn. rewrite E in Hn. cbn in Hn. discriminate.
Qed.

Lemma typing_empty_setup_witness :
  TypingAnimation.texts typing_empty = []
  /\ exists i, TypingAnimation.mount typing_empty = Ok i
               /\ TypingAnimation.state i = TypingAnimation.initial.
Proof.
  split; [reflexivity|].
  destruct (typing_empty_setup typing_empty eq_refl) as (i & Hm & Hs & _).
  exists i. split; assumption.
Defined.


(** ** Numbers *)

Section NumberFacts.

Lemma Qlt_bool_true (a b : Q) : Qlt_bool a b = true <-> (a < b)%Q.
Proof.
  unfold Qlt_bool. rewrite negb_true_iff. split.
  - intros H. apply Qnot_le_lt. intros Hle.
    apply Qle_bool_iff in Hle. congruence.
  - intros H. destruct (Qle_bool b a) eqn:E; [|reflexivity].
    apply Qle_bool_iff in E. exfalso. eapply Qlt_not_le; eauto.
Qed.

Lemma Qlt_bool_false (a b : Q) : Qlt_bool a b = false <-> (b <= a)%Q.
Proof.
  unfold Qlt_bool. rewrite negb_false_iff. apply Qle_bool_iff.
Qed.

Lemma Qle_bool_false (a b : Q) : Qle_bool a b = false <-> (b < a)%Q.
Proof.
  split.
  - intros H. apply Qnot_le_lt. intros Hle.
    apply Qle_bool_iff in Hle. congruence.
  - intros H. destruct (Qle_bool a b) eqn:E; [|reflexivity].
    apply Qle_bool_iff in E. exfalso. eapply Qlt_not_le; eauto.
Qed.

Lemma Qeq_bool_false (a b : Q) : ~ (a == b)%Q -> Qeq_bool a b = false.
Proof.
  intros H. destruct (Qeq_bool a b) eqn:E; [|reflexivity].
  apply Qeq_bool_iff in E. contradiction.
Qed.

Lemma Fin_floor_eq (a b : Q) :
  (a == b)%Q -> Fin (inject_Z (Qfloor a)) = Fin (inject_Z (Qfloor b)).
Proof. intros H. now rewrite H. Qed.

(** The curve is monotone up to 1, and never exceeds 1. *)
Lemma ease_out_mono (p q : Q) :
  (p <= q)%Q -> (q <= 1)%Q -> (ease_out p <= ease_out q)%Q.
Proof.
  unfold ease_out. intros Hpq Hq.
  assert (0 <= (q - p) * (2 - p - q))%Q by (apply Qmult_le_0_compat; lra).
  lra.
Qed.

Lemma ease_out_le_1 (p : Q) : (ease_out p <= 1)%Q.
Proof.
  unfold ease_out.
  assert (H : (0 <= (1 - p) * (1 - p))%Q).
  { destruct (Qlt_le_dec 1 p).
    - assert (E : ((1 - p) * (1 - p) == (p - 1) * (p - 1))%Q) by ring.
      rewrite E. apply Qmult_le_0_compat; lra.
    - apply Qmult_le_0_compat; lra. }
  lra.
Qed.

Lemma ease_out_nonneg (p : Q) :
  (0 <= p)%Q -> (p <= 1)%Q -> (0 <= ease_out p)%Q.
Proof. unfold ease_out. intros. apply Qmult_le_0_compat; lra. Qed.

Lemma half_bounds (h a : Q) :
  (0 < h)%Q -> (0 <= a)%Q -> (a <= h)%Q ->
  (0 < h / 2)%Q /\ (- (h / 2) <= a + - (h / 2))%Q
  /\ (a + - (h / 2) <= h / 2)%Q.
Proof.
  intros Hh H1 H2.
  assert (Ec : (h / 2 + h / 2 == h)%Q) by field.
  set (c := (h / 2)%Q) in *. repeat split; lra.
Qed.

Lemma ratio_bounds (a c : Q) :
  (0 < c)%Q -> (- c <= a)%Q -> (a <= c)%Q ->
  (-1 <= a / c)%Q /\ (a / c <= 1)%Q.
Proof.
  intros Hc H1 H2. split.
  - apply Qle_shift_div_l; lra.
  - apply Qle_shift_div_r; lra.
Qed.

Lemma ease_out_0 : (ease_out 0 == 0)%Q.
Proof. reflexivity. Qed.

Lemma ease_out_1 : (ease_out 1 == 1)%Q.
Proof. reflexivity. Qed.

End NumberFacts.

(** ** AnimatedCounter *)

(** C2, as stated, fails.  With [end = 1000] and a duration of
    3000.0000000000005 ms, started at clock value 1700000000000, the frame
    sampled 3000 ms later has [t - startTime < duration], and
    [floor (easedProgress * end)] is 999 there; yet [startTime + duration]
    rounds to [startTime + 3000], so [now < endTime] is false: the frame
    leaves 1000 and requests no further frame. *)
Lemma counter_exactness_counterexample :
  let startTime := 1700000000000 in
  let now := 1700000003000 in
  let c' := AnimatedCounter64.updateCounter counter64_over_3000 startTime now
              {| AnimatedCounter64.count := Binary64.of_Z 0;
                 AnimatedCounter64.frames := [] |} in
  Binary64.lt (Binary64.sub (Binary64.of_Z now) (Binary64.of_Z startTime))
    (AnimatedCounter64.duration counter64_over_3000) = true
  /\ eased_count64 counter64_over_3000 startTime now = Binary64.of_Z 999
  /\ AnimatedCounter64.count c' = Binary64.of_Z 1000
  /\ AnimatedCounter64.frames c' = [].
Proof. vm_compute. repeat split; reflexivity. Qed.

(** C2, amended.  A frame sampled at time [now] of the loop started at
    [startTime]:
    - for a finite [end] and a finite positive [duration], when
      [now - startTime >= duration] it leaves the count exactly [end] and
      requests no further frame;
    - in the code's binary64 arithmetic, for every [end] and [duration]:
      when [now < endTime] is false, [endTime] being the rounded
      [startTime + duration], it leaves exactly [end] and requests no
      frame; when [now < endTime] holds it leaves
      [floor (easeOutQuad (min ((now - startTime) / duration) 1) * end)],
      every operation rounded, and requests the next frame. *)
Theorem counter_exactness (e d : Q) (props64 : AnimatedCounter64.Props)
    (startTime now : Z) (c : AnimatedCounter.Instance)
    (c64 : AnimatedCounter64.Loop) :
  (0 < d)%Q ->
  ((d <= inject_Z now - inject_Z startTime)%Q ->
     let c' := AnimatedCounter.updateCounter
                 {| AnimatedCounter.end_ := Fin e;
                    AnimatedCounter.duration := Fin d |} startTime now c in
     AnimatedCounter.count c' = Fin e
     /\ AnimatedCounter.frames c' = AnimatedCounter.frames c)
  /\ (let c' := AnimatedCounter64.updateCounter props64 startTime now c64 in
      (Binary64.lt (Binary64.of_Z now) (endTime64 props64 startTime) = false ->
         AnimatedCounter64.count c' = AnimatedCounter64.end_ props64
         /\ AnimatedCounter64.frames c' = AnimatedCounter64.frames c64)
      /\ (Binary64.lt (Binary64.of_Z now) (endTime64 props64 startTime)
          = true ->
          AnimatedCounter64.count c' = eased_count64 props64 startTime now
          /\ AnimatedCounter64.frames c'
             = AnimatedCounter64.frames c64 ++ [startTime])).
Proof.
  intros Hd. split.
  - intros Hel c'. subst c'. unfold AnimatedCounter.updateCounter.
    cbn [AnimatedCounter.duration AnimatedCounter.end_].
    unfold of_Z. cbn [add sub neg lt].
    assert (Hlt : Qlt_bool (inject_Z now) (inject_Z startTime + d) = false).
    { apply Qlt_bool_false. lra. }
    rewrite Hlt. split; reflexivity.
  - intros c'. subst c'. unfold AnimatedCounter64.updateCounter, endTime64.
    split; intros Hlt; rewrite Hlt; split; reflexivity.
Qed.

Lemma counter_exactness_witness :
  (0 < 2000)%Q /\ (2000 <= inject_Z 2000 - inject_Z 0)%Q
  /\ AnimatedCounter.count
       (AnimatedCounter.updateCounter counter_demo 0 2000
          (counter_started 0)) = Fin 1000
  /\ Binary64.lt (Binary64.of_Z 2400) (endTime64 counter64_demo 1000) = true
  /\ AnimatedCounter64.count
       (AnimatedCounter64.updateCounter counter64_demo 1000 2400
          (AnimatedCounter64.started 1000))
     = eased_count64 counter64_demo 1000 2400
  /\ eased_count64 counter64_demo 1000 2400 = Binary64.of_Z 909
  /\ Binary64.lt (Binary64.of_Z 3000) (endTime64 counter64_demo 1000) = false
  /\ AnimatedCounter64.count
       (AnimatedCounter64.updateCounter counter64_demo 1000 3000
          (AnimatedCounter64.started 1000))
     = Binary64.of_Z 1000.
Proof.
  assert (Hel : (2000 <= inject_Z 2000 - inject_Z 0)%Q)
    by (apply Qle_bool_iff; reflexivity).
  assert (Hlt : Binary64.lt (Binary64.of_Z 2400)
                  (endTime64 counter64_demo 1000) = true)
    by (vm_compute; reflexivity).
  assert (Hge : Binary64.lt (Binary64.of_Z 3000)
                  (endTime64 counter64_demo 1000) = false)
    by (vm_compute; reflexivity).
  split; [reflexivity|]. split; [exact Hel|]. split.
  { exact (proj1 (proj1 (counter_exactness 1000 2000 counter64_demo 0 2000
                           (counter_started 0)
                           (AnimatedCounter64.started 0) eq_refl) Hel)). }
  split; [exact Hlt|]. split.
  { exact (proj1 (proj2 (proj2 (counter_exactness 1000 2000 counter64_demo
                                  1000 2400 (counter_started 0)
                                  (AnimatedCounter64.started 1000) eq_refl))
                    Hlt)). }
  split; [vm_compute; reflexivity|]. split; [exact Hge|].
  exact (proj1 (proj1 (proj2 (counter_exactness 1000 2000 counter64_demo
                                1000 3000 (counter_started 0)
                                (AnimatedCounter64.started 1000) eq_refl))
                  Hge)).
Defined.

Section CounterFacts.
Import AnimatedCounter.

Lemma updateCounter_spec (props : Props) (startTime t : Z) (c : Instance) :
  updateCounter props startTime t c
  = {| count := frame_count props startTime t;
       hasAnimated := hasAnimated c;
       observer := observer c;
       frames := if loop_continues props startTime t
                 then frames c ++ [startTime] else frames c |}.
Proof.
  unfold updateCounter, frame_count, eased_count, loop_continues.
  destruct (of_Z t <? of_Z startTime + duration props)%js; reflexivity.
Qed.

Lemma frame_running (props : Props) (startTime t : Z) (c : Instance) :
  frames c = [startTime] ->
  frame props t c
  = {| count := frame_count props startTime t;
       hasAnimated := hasAnimated c;
       observer := observer c;
       frames := if loop_continues props startTime t
                 then [startTime] else [] |}.
Proof.
  intros Hf. unfold frame. rewrite Hf. cbn [fold_left].
  rewrite updateCounter_spec. reflexivity.
Qed.

Lemma frame_idle (props : Props) (t : Z) (c : Instance) :
  frames c = [] -> frame props t c = c.
Proof.
  intros Hf. unfold frame. rewrite Hf. destruct c; cbn in *. now subst.
Qed.


Variable e : Q.

Lemma le_Fin (a b : Q) : (Fin a <=? Fin b)%js = true <-> (a <= b)%Q.
Proof. apply Qle_bool_iff. Qed.

Lemma le_floor (a b : Q) :
  (a <= b)%Q -> (floor (Fin a) <=? floor (Fin b))%js = true.
Proof.
  intros H. cbn [floor]. apply le_Fin. rewrite <- Zle_Qle.
  now apply Qfloor_resp_le.
Qed.

Lemma floor_le (a b : Q) :
  (a <= b)%Q -> (floor (Fin a) <=? Fin b)%js = true.
Proof.
  intros H. cbn [floor]. apply le_Fin.
  eapply Qle_trans; [apply Qfloor_le|exact H].
Qed.

(** The count written by a continuing frame, for a finite non-zero
    duration. *)
Lemma eased_count_Fin (q : Q) (startTime t : Z) :
  ~ (q == 0)%Q ->
  eased_count {| end_ := Fin e; duration := Fin q |} startTime t
  = floor (Fin (ease_out
                  (Qmin ((inject_Z t - inject_Z startTime) / q) 1) * e)).
Proof.
  intros Hq. unfold eased_count, of_Z.
  cbn [duration end_ sub add neg div].
  rewrite (Qeq_bool_false q 0 Hq). cbn [min le].
  change (inject_Z t + - inject_Z startTime)%Q
    with (inject_Z t - inject_Z startTime)%Q.
  set (x := ((inject_Z t - inject_Z startTime) / q)%Q).
  destruct (Qle_bool x 1) eqn:E.
  - apply Qle_bool_iff in E. unfold easeOutQuad.
    cbn [mul sub add neg floor]. apply Fin_floor_eq.
    unfold ease_out. rewrite (Q.min_l x 1) by exact E. reflexivity.
  - apply Qle_bool_false in E. unfold easeOutQuad.
    cbn [mul sub add neg floor]. apply Fin_floor_eq.
    unfold ease_out. rewrite (Q.min_r x 1) by lra. reflexivity.
Qed.

Lemma loop_continues_Fin (q : Q) (startTime t : Z) :
  loop_continues {| end_ := Fin e; duration := Fin q |} startTime t = true
  <-> (inject_Z t - inject_Z startTime < q)%Q.
Proof.
  unfold loop_continues, of_Z. cbn [duration add lt].
  rewrite Qlt_bool_true. split; intros; lra.
Qed.

(** With an infinite duration every frame writes [floor (0 * end)]. *)
Lemma eased_count_PInf (startTime t : Z) :
  eased_count {| end_ := Fin e; duration := PInf |} startTime t
  = floor (Fin (ease_out 0 * e)).
Proof. reflexivity. Qed.

End CounterFacts.

(** Once the render with [hasAnimated = true] is committed the observer is
    gone, and no later batch of entries starts anything. *)
Lemma intersect_after_commit (props : AnimatedCounter.Props)
    (c0 : AnimatedCounter.Instance) (t t' : Z) (entries : list bool) :
  AnimatedCounter.mount props = Ok c0 ->
  AnimatedCounter.intersect entries t' (AnimatedCounter.intersect [true] t c0)
  = AnimatedCounter.intersect [true] t c0.
Proof. intros H. inversion H; subst. reflexivity. Qed.

(** Unmount does not touch the pending frame callbacks. *)
Lemma unmount_keeps_frames (c : AnimatedCounter.Instance) :
  AnimatedCounter.frames (AnimatedCounter.unmount c)
  = AnimatedCounter.frames c.
Proof. reflexivity. Qed.

(** C6, at the failing input. Two intersecting entries delivered in one
    batch to a fresh instance start two frame loops, and both keep
    running. *)
Theorem counter_double_start :
  exists c0,
    AnimatedCounter.mount counter_demo = Ok c0
    /\ AnimatedCounter.frames
         (AnimatedCounter.intersect [true; true] 1000 c0) = [1000; 1000]
    /\ AnimatedCounter.frames
         (AnimatedCounter.frame counter_demo 1016
            (AnimatedCounter.intersect [true; true] 1000 c0))
       = [1000; 1000].
Proof. eexists. split; [reflexivity|]. split; reflexivity. Qed.

(** C1, at the failing input. A counter unmounted in the middle of its
    animation still has its frame callback pending; the next frame runs
    it, the count is written again and a further frame is requested. *)
Theorem counter_frame_after_unmount :
  exists c0,
    AnimatedCounter.mount counter_demo = Ok c0
    /\ let c := AnimatedCounter.unmount
                  (AnimatedCounter.frame counter_demo 1016
                     (AnimatedCounter.intersect [true] 1000 c0)) in
       AnimatedCounter.frames c = [1000]
       /\ AnimatedCounter.count c = Fin 15
       /\ AnimatedCounter.count (AnimatedCounter.frame counter_demo 1500 c)
          = Fin 437
       /\ AnimatedCounter.frames (AnimatedCounter.frame counter_demo 1500 c)
          = [1000].
Proof. eexists. split; [reflexivity|]. repeat split; reflexivity. Qed.

(** C9, as stated, fails: a configuration with a NaN [end] and an
    infinite [duration] is not rejected, and its loop is started. *)
Lemma counter_validation_counterexample :
  ~ counter_rejected {| AnimatedCounter.end_ := NaN;
                        AnimatedCounter.duration := PInf |}
  /\ counter_loop_started {| AnimatedCounter.end_ := NaN;
                             AnimatedCounter.duration := PInf |} 1000.
Proof.
  split.
  - intros [msg H]. discriminate H.
  - eexists. split; [reflexivity|]. discriminate.
Qed.

(** C9, amended. No configuration is rejected: for every [end] and
    [duration], finite or not, setup succeeds with the observer connected
    and no frame pending, and the first intersecting entry starts the
    frame loop. *)
Theorem counter_setup_unchecked (props : AnimatedCounter.Props) (now : Z) :
  exists c0,
    AnimatedCounter.mount props = Ok c0
    /\ AnimatedCounter.observer c0 = Some false
    /\ AnimatedCounter.frames c0 = []
    /\ AnimatedCounter.frames (AnimatedCounter.intersect [true] now c0)
       = [now].
Proof. eexists. split; [reflexivity|]. repeat split; reflexivity. Qed.

(** ** useTilt *)

(** After unmount no listener is left on the element, and a mouse event
    delivered to it runs no handler. *)
Lemma tilt_teardown (options : Tilt.TiltOptions) (reduced : bool)
    (el : Tilt.Element) (l : Tilt.Listener)
    (rect : Tilt.DOMRect) (ev : Tilt.MouseEvent) :
  Tilt.listeners el = [] ->
  exists el',
    Tilt.unmount reduced (Tilt.effect options reduced (Some el)) = Some el'
    /\ Tilt.listeners el' = []
    /\ Tilt.dispatch options l rect ev el' = el'.
Proof.
  intros Hl. destruct reduced; cbn.
  - exists el. split; [reflexivity|]. split; [exact Hl|].
    unfold Tilt.dispatch. rewrite Hl. reflexivity.
  - eexists. split; [reflexivity|]. rewrite Hl. cbn.
    split; reflexivity.
Qed.

(** C3, as stated, fails: for a pointer position outside the element's box
    the angle about the vertical axis is 45 degrees, beyond the default
    maximum of 15. *)
Lemma tilt_bounds_counterexample :
  ~ (forall options rect ev,
       within_tilt options (fst (Tilt.rotation options rect ev))
       /\ within_tilt options (snd (Tilt.rotation options rect ev))).
Proof.
  intros H.
  destruct (H Tilt.default_options tilt_rect tilt_outside) as [_ [_ Hy]].
  vm_compute in Hy. discriminate Hy.
Qed.

(** C3, amended. For an element box of positive width and height and a
    finite maximum tilt: for every pointer position inside the box, with a
    non-negative maximum, both angles lie within [-max, max]; and at the
    centre of the box both angles equal 0. *)
Theorem tilt_bounds (options : Tilt.TiltOptions) (m l t w h : Q) :
  Tilt.max options = Fin m -> (0 < w)%Q -> (0 < h)%Q ->
  let rect := {| Tilt.left := Fin l; Tilt.top := Fin t;
                 Tilt.width := Fin w; Tilt.height := Fin h |} in
  (forall x y : Q,
      (0 <= m)%Q ->
      (l <= x)%Q -> (x <= l + w)%Q -> (t <= y)%Q -> (y <= t + h)%Q ->
      let ev := {| Tilt.clientX := Fin x; Tilt.clientY := Fin y |} in
      within_tilt options (fst (Tilt.rotation options rect ev))
      /\ within_tilt options (snd (Tilt.rotation options rect ev)))
  /\ (let centre := {| Tilt.clientX := Fin (l + w / 2);
                       Tilt.clientY := Fin (t + h / 2) |} in
      eqb (fst (Tilt.rotation options rect centre)) (Fin 0) = true
      /\ eqb (snd (Tilt.rotation options rect centre)) (Fin 0) = true).
Proof.
  intros Hmax Hw Hh rect.
  assert (Hw0 : (0 < w / 2)%Q) by (apply Qlt_shift_div_l; lra).
  assert (Hh0 : (0 < h / 2)%Q) by (apply Qlt_shift_div_l; lra).
  assert (Hw2 : ~ (w / 2 == 0)%Q) by (intros E; rewrite E in Hw0; lra).
  assert (Hh2 : ~ (h / 2 == 0)%Q) by (intros E; rewrite E in Hh0; lra).
  unfold within_tilt, Tilt.rotation. rewrite Hmax.
  cbn [Tilt.left Tilt.top Tilt.width Tilt.height rect
       Tilt.clientX Tilt.clientY fst snd sub add neg div].
  rewrite (Qeq_bool_false 2 0) by (intros E; discriminate E).
  cbn [sub add neg div].
  rewrite (Qeq_bool_false (w / 2) 0 Hw2), (Qeq_bool_false (h / 2) 0 Hh2).
  cbn [mul le eqb neg].
  split.
  - intros x y Hm Hx1 Hx2 Hy1 Hy2. cbn [Tilt.clientX Tilt.clientY].
    set (u := ((y + - t + - (h / 2)) / (h / 2))%Q).
    set (v := ((x + - l + - (w / 2)) / (w / 2))%Q).
    assert (Hu : (-1 <= u)%Q /\ (u <= 1)%Q).
    { destruct (half_bounds h (y + - t)) as (Hc & Hlo & Hhi); try lra.
      subst u. now apply ratio_bounds. }
    assert (Hv : (-1 <= v)%Q /\ (v <= 1)%Q).
    { destruct (half_bounds w (x + - l)) as (Hc & Hlo & Hhi); try lra.
      subst v. now apply ratio_bounds. }
    destruct Hu as [Hu1 Hu2], Hv as [Hv1 Hv2].
    assert (Pu1 : (0 <= (1 - u) * m)%Q) by (apply Qmult_le_0_compat; lra).
    assert (Pu2 : (0 <= (1 + u) * m)%Q) by (apply Qmult_le_0_compat; lra).
    assert (Pv1 : (0 <= (1 - v) * m)%Q) by (apply Qmult_le_0_compat; lra).
    assert (Pv2 : (0 <= (1 + v) * m)%Q) by (apply Qmult_le_0_compat; lra).
    repeat split; apply Qle_bool_iff; lra.
  - cbn [Tilt.clientX Tilt.clientY].
    split; apply Qeq_bool_iff.
    + assert (E : (t + h / 2 + - t + - (h / 2) == 0)%Q) by ring.
      rewrite E. unfold Qdiv. ring.
    + assert (E : (l + w / 2 + - l + - (w / 2) == 0)%Q) by ring.
      rewrite E. unfold Qdiv. ring.
Qed.

Lemma tilt_bounds_witness :
  Tilt.max Tilt.default_options = Fin 15 /\ (0 < 100)%Q /\ (0 <= 15)%Q
  /\ (0 <= 25)%Q /\ (25 <= 0 + 100)%Q /\ (0 <= 75)%Q /\ (75 <= 0 + 100)%Q
  /\ (within_tilt Tilt.default_options
        (fst (Tilt.rotation Tilt.default_options tilt_rect tilt_inside))
      /\ within_tilt Tilt.default_options
           (snd (Tilt.rotation Tilt.default_options tilt_rect tilt_inside)))
  /\ eqb (fst (Tilt.rotation Tilt.default_options tilt_rect
                 {| Tilt.clientX := Fin (0 + 100 / 2);
                    Tilt.clientY := Fin (0 + 100 / 2) |})) (Fin 0) = true.
Proof.
  assert (H15 : (0 <= 15)%Q) by (apply Qle_bool_iff; reflexivity).
  assert (Hx1 : (0 <= 25)%Q) by (apply Qle_bool_iff; reflexivity).
  assert (Hx2 : (25 <= 0 + 100)%Q) by (apply Qle_bool_iff; reflexivity).
  assert (Hy1 : (0 <= 75)%Q) by (apply Qle_bool_iff; reflexivity).
  assert (Hy2 : (75 <= 0 + 100)%Q) by (apply Qle_bool_iff; reflexivity).
  pose proof (tilt_bounds Tilt.default_options 15%Q 0%Q 0%Q 100%Q 100%Q
                eq_refl eq_refl eq_refl) as [Hin Hcentre].
  repeat (split; [first [reflexivity | assumption]|]).
  split.
  - exact (Hin 25%Q 75%Q H15 Hx1 Hx2 Hy1 Hy2).
  - exact (proj1 Hcentre).
Defined.

(** ** ThemeProvider and useTheme *)

Section ThemeFacts.
Import Theme.

Lemma applyTheme_calls (t : Theme) (env : Env) :
  calls (snd (applyTheme (theme_str t) env))
  = calls env ++ [match t with
                  | dark => ClassAdd "dark"
                  | light => ClassRemove "dark"
                  end]
  /\ localStorage (snd (applyTheme (theme_str t) env)) = localStorage env.
Proof. destruct t; split; reflexivity. Qed.

Lemma setTheme_persists (v : Theme) (p : ProviderState) (env : Env) :
  localStorage (snd (setTheme v p env)) !! "theme" = Some (theme_str v).
Proof.
  destruct v; unfold setTheme, bind, setItem, applyTheme; cbn;
    apply lookup_insert_eq.
Qed.

(** Without a persisted value the media query decides. *)
Lemma init_without_stored (env : Env) :
  localStorage env !! "theme" = None ->
  theme (fst (init initial env))
  = (if prefersDark env then "dark" else "light")
  /\ In (MatchMedia "(prefers-color-scheme: dark)")
        (calls (snd (init initial env))).
Proof.
  intros Hn. unfold init, bind, getItem. rewrite Hn. cbn [truthy].
  unfold matchMedia. cbn [prefersDark log].
  destruct (prefersDark env); cbn; split; auto;
    apply in_or_app; left; apply in_or_app; right; left; reflexivity.
Qed.

End ThemeFacts.

(** C7. For either theme [v], [setTheme v] followed by the mount effect of
    a fresh provider on a reloaded page yields current theme [v]; the
    storage key is read, and the color-scheme media query is not
    consulted, whatever the system preference is. *)
Theorem theme_round_trip (v : Theme.Theme) (p : Theme.ProviderState)
    (env : Theme.Env) (systemPrefersDark : bool) :
  let env1 := snd (Theme.setTheme v p env) in
  let r := Theme.init Theme.initial (Theme.reload env1 systemPrefersDark) in
  Theme.theme (fst r) = Theme.theme_str v
  /\ Theme.mounted (fst r) = true
  /\ In (Theme.GetItem "theme") (Theme.calls (snd r))
  /\ forall query, ~ In (Theme.MatchMedia query) (Theme.calls (snd r)).
Proof.
  intros env1 r.
  pose proof (setTheme_persists v p env) as Hs. fold env1 in Hs.
  subst r. unfold Theme.init, Theme.bind, Theme.getItem.
  cbn [Theme.reload Theme.localStorage]. rewrite Hs.
  clearbody env1. clear Hs.
  destruct v; vm_compute.
  - repeat split; auto. intros q [H|[H|[]]]; discriminate.
  - repeat split; auto. intros q [H|[H|[]]]; discriminate.
Qed.

(** C10. Outside a provider, where the context is undefined, [useTheme]
    throws; under a provider that renders its children it returns the
    provider's context value: the current theme with [toggleTheme] and
    [setTheme]. *)
Theorem useTheme_guard :
  Theme.useTheme None = Throw "useTheme must be used within a ThemeProvider"
  /\ forall p ctx,
      Theme.ThemeProvider p = Some ctx ->
      Theme.useTheme (Some ctx) = Ok ctx
      /\ Theme.ctx_theme ctx = Theme.theme p
      /\ Theme.ctx_toggleTheme ctx = Theme.toggleTheme p
      /\ Theme.ctx_setTheme ctx = (fun t => Theme.setTheme t p).
Proof.
  split; [reflexivity|].
  intros p ctx H. unfold Theme.ThemeProvider in H.
  destruct (Theme.mounted p); cbn in H; [|discriminate].
  inversion H; subst. repeat split; reflexivity.
Qed.

Lemma useTheme_guard_witness :
  let p := {| Theme.theme := "dark"; Theme.mounted := true |} in
  exists ctx, Theme.ThemeProvider p = Some ctx
              /\ Theme.useTheme (Some ctx) = Ok ctx.
Proof.
  intros p. eexists. split; [reflexivity|].
  exact (proj1 (proj2 useTheme_guard p _ eq_refl)).
Defined.

(* ===================================================================== *)
(** * Further properties *)
(* ===================================================================== *)

(** ** ThemeProvider *)

Section ThemeMore.
Import Theme.

Lemma setTheme_synced (v : Theme) (p : ProviderState) (env : Env) :
  theme_synced (fst (setTheme v p env)) (snd (setTheme v p env)) v.
Proof.
  unfold theme_synced. split; [destruct v; reflexivity|].
  split; [apply setTheme_persists|].
  destruct v; unfold setTheme, bind, setItem, applyTheme;
    cbn [theme_str];
    [rewrite bool_decide_eq_false_2 by discriminate
    |rewrite bool_decide_eq_true_2 by reflexivity]; cbn.
  - split; [|discriminate]. rewrite elem_of_difference.
    intros [_ H]. exfalso. apply H. now apply elem_of_singleton.
  - split; [reflexivity|]. intros _. apply elem_of_union. left.
    now apply elem_of_singleton.
Qed.

Lemma toggleTheme_valid (t : Theme) (p : ProviderState) :
  theme p = theme_str t -> toggleTheme p = setTheme (other_theme t) p.
Proof.
  intros H. unfold toggleTheme. rewrite H. destruct t; reflexivity.
Qed.

Lemma theme_op_synced (op : ThemeOp) (t : Theme)
    (p : ProviderState) (env : Env) :
  theme p = theme_str t ->
  theme_synced (fst (theme_op op p env)) (snd (theme_op op p env))
    (theme_after [op] t).
Proof.
  intros H. destruct op as [t'|]; cbn [theme_op theme_after fold_left].
  - apply setTheme_synced.
  - rewrite (toggleTheme_valid t p H). apply setTheme_synced.
Qed.

End ThemeMore.

Lemma theme_ops_one_render_sync (ops : list ThemeOp) (t : Theme.Theme)
    (p : Theme.ProviderState) :
  Theme.theme p = Theme.theme_str t -> ops <> [] ->
  forall (current : Theme.ProviderState) (env : Theme.Env),
    theme_synced (fst (theme_ops_one_render ops p current env))
      (snd (theme_ops_one_render ops p current env))
      (theme_after_one_render ops t).
Proof.
  intros Ht. induction ops as [|op ops IH]; [congruence|].
  intros _ current env.
  pose proof (theme_op_synced op t p env Ht) as Hs.
  cbn [theme_ops_one_render]. unfold Theme.bind.
  destruct (theme_op op p env) as [p1 env1] eqn:E1. cbn [fst snd] in Hs.
  destruct ops as [|op2 ops].
  - exact Hs.
  - assert (Hne : op2 :: ops <> []) by discriminate.
    replace (theme_after_one_render (op :: op2 :: ops) t)
      with (theme_after_one_render (op2 :: ops) t).
    + exact (IH Hne p1 env1).
    + unfold theme_after_one_render. cbn [fold_left].
      reflexivity.
Qed.

(** X1. From a provider whose theme is [t], a non-empty sequence of
    [setTheme] and [toggleTheme] calls always ends with the state, the
    persisted value and the root class agreeing on one theme.  With a
    render between the calls that theme is the one obtained by folding
    the calls over [t].  When all the calls go through the context value
    of one render, each toggle reads the theme [t] of that render, and the
    last call alone decides: the theme it names, or the other theme than
    [t] if it is a toggle. *)
Theorem theme_ops_synced (ops : list ThemeOp) (t : Theme.Theme)
    (p : Theme.ProviderState) (env : Theme.Env) :
  ops <> [] ->
  Theme.theme p = Theme.theme_str t ->
  theme_synced (fst (theme_ops ops p env)) (snd (theme_ops ops p env))
    (theme_after ops t)
  /\ theme_synced (fst (theme_ops_one_render ops p p env))
       (snd (theme_ops_one_render ops p p env))
       (theme_after_one_render ops t).
Proof.
  intros Hne Ht. split.
  - revert Hne. revert t p env Ht.
    induction ops as [|op ops IH]; [congruence|].
    intros t p env Ht _.
    pose proof (theme_op_synced op t p env Ht) as Hs.
    cbn [theme_ops]. unfold Theme.bind.
    destruct (theme_op op p env) as [p1 env1] eqn:E1. cbn [fst snd] in Hs.
    destruct ops as [|op2 ops].
    + exact Hs.
    + apply IH; [apply Hs|discriminate].
  - now apply theme_ops_one_render_sync.
Qed.

Lemma theme_ops_synced_witness :
  [OpSetTheme Theme.dark; OpToggleTheme] <> []
  /\ Theme.theme Theme.initial = Theme.theme_str Theme.light
  /\ Theme.theme
       (fst (theme_ops [OpSetTheme Theme.dark; OpToggleTheme]
               Theme.initial theme_blank_env))
     = "light"
  /\ Theme.theme
       (fst (theme_ops_one_render [OpSetTheme Theme.dark; OpToggleTheme]
               Theme.initial Theme.initial theme_blank_env))
     = "dark".
Proof.
  assert (Hne : [OpSetTheme Theme.dark; OpToggleTheme] <> [])
    by discriminate.
  pose proof (theme_ops_synced _ Theme.light Theme.initial
                theme_blank_env Hne eq_refl) as [H1 H2].
  split; [exact Hne|]. split; [reflexivity|]. split.
  - exact (proj1 H1).
  - exact (proj1 H2).
Defined.

(** X2. From a provider whose theme is light or dark: two [toggleTheme]
    calls with a render between them (two separate clicks) bring the
    state, the persisted value and the root class back to that theme; two
    calls through the context value of the same render both read the same
    theme, and leave all three at the other theme. *)
Theorem toggleTheme_twice (t : Theme.Theme) (p : Theme.ProviderState)
    (env : Theme.Env) :
  Theme.theme p = Theme.theme_str t ->
  let r1 := Theme.toggleTheme p env in
  let r2 := Theme.toggleTheme (fst r1) (snd r1) in
  let r2' := Theme.toggleTheme p (snd r1) in
  theme_synced (fst r2) (snd r2) t
  /\ theme_synced (fst r2') (snd r2') (other_theme t).
Proof.
  intros Ht r1 r2 r2'. split.
  - assert (H1 : Theme.theme (fst r1) = Theme.theme_str (other_theme t)).
    { subst r1. rewrite (toggleTheme_valid t p Ht).
      apply (setTheme_synced (other_theme t) p env). }
    subst r2. rewrite (toggleTheme_valid (other_theme t) (fst r1) H1).
    replace (other_theme (other_theme t)) with t
      by (destruct t; reflexivity).
    apply setTheme_synced.
  - subst r2'. rewrite (toggleTheme_valid t p Ht). apply setTheme_synced.
Qed.

Lemma toggleTheme_twice_witness :
  Theme.theme theme_dark_provider = Theme.theme_str Theme.dark
  /\ Theme.theme
       (fst (Theme.toggleTheme
               (fst (Theme.toggleTheme theme_dark_provider theme_blank_env))
               (snd (Theme.toggleTheme theme_dark_provider theme_blank_env))))
     = "dark"
  /\ Theme.theme
       (fst (Theme.toggleTheme theme_dark_provider
               (snd (Theme.toggleTheme theme_dark_provider theme_blank_env))))
     = "light".
Proof.
  pose proof (toggleTheme_twice Theme.dark theme_dark_provider
                theme_blank_env eq_refl) as [H1 H2].
  split; [reflexivity|]. split.
  - exact (proj1 H1).
  - exact (proj1 H2).
Defined.

Section ThemeInit.
Import Theme.

Lemma applyTheme_effect (t : string) (env : Env) :
  localStorage (snd (applyTheme t env)) = localStorage env
  /\ ("dark" ∈ classList (snd (applyTheme t env)) <-> t = "dark").
Proof.
  unfold applyTheme. case_bool_decide as E; cbn.
  - split; [reflexivity|]. split; [auto|]. intros _.
    apply elem_of_union. left. now apply elem_of_singleton.
  - split; [reflexivity|]. split; [|contradiction].
    rewrite elem_of_difference. intros [_ H]. exfalso. apply H.
    now apply elem_of_singleton.
Qed.

(** The theme [init] resolves to, and what it leaves of the platform. *)
Lemma init_resolved (p : ProviderState) (env : Env) :
  theme (fst (init p env))
  = match truthy (localStorage env !! "theme") with
    | Some stored => stored
    | None => system_theme (prefersDark env)
    end
  /\ mounted (fst (init p env)) = true
  /\ localStorage (snd (init p env)) = localStorage env
  /\ ("dark" ∈ classList (snd (init p env))
      <-> theme (fst (init p env)) = "dark").
Proof.
  unfold init, bind, getItem.
  destruct (truthy (localStorage env !! "theme")) as [stored|].
  - destruct (applyTheme stored (log (GetItem "theme") env))
      as [u e'] eqn:E.
    pose proof (applyTheme_effect stored (log (GetItem "theme") env)) as H.
    rewrite E in H. cbn [fst snd] in *. destruct H as [H1 H2].
    repeat split; auto; apply H2.
  - unfold matchMedia. cbn [prefersDark log].
    set (t := if prefersDark env then "dark" else "light").
    set (e0 := log (MatchMedia "(prefers-color-scheme: dark)")
                 (log (GetItem "theme") env)).
    destruct (applyTheme t e0) as [u e'] eqn:E.
    pose proof (applyTheme_effect t e0) as H.
    rewrite E in H. cbn [fst snd] in *. destruct H as [H1 H2].
    repeat split; auto; apply H2.
Qed.

End ThemeInit.

(** X3. The mount effect never writes the store: whatever was persisted
    (or nothing) is still there afterwards, so a theme taken from the
    system preference is not persisted; the provider ends up mounted and
    the root carries the class [dark] exactly when the resolved theme is
    [dark]. *)
Theorem init_keeps_store (p : Theme.ProviderState) (env : Theme.Env) :
  let r := Theme.init p env in
  Theme.localStorage (snd r) = Theme.localStorage env
  /\ Theme.mounted (fst r) = true
  /\ ("dark" ∈ Theme.classList (snd r) <-> Theme.theme (fst r) = "dark").
Proof.
  intros r. destruct (init_resolved p env) as (_ & Hm & Hs & Hc).
  repeat split; auto; apply Hc.
Qed.

(** X4. A persisted value that is neither empty nor a theme is adopted as
    it is: the provider's theme becomes that string and the root shows
    light styling; the first [toggleTheme] then sets ['light'], so the
    styling stays light across that call. *)
Theorem init_adopts_unknown (stored : string) (p : Theme.ProviderState)
    (env : Theme.Env) :
  Theme.localStorage env !! "theme" = Some stored ->
  stored <> "" -> stored <> "light" -> stored <> "dark" ->
  let r := Theme.init p env in
  let r' := Theme.toggleTheme (fst r) (snd r) in
  Theme.theme (fst r) = stored
  /\ ("dark" ∉ Theme.classList (snd r))
  /\ Theme.theme (fst r') = "light"
  /\ ("dark" ∉ Theme.classList (snd r')).
Proof.
  intros Hl He Hli Hd r r'.
  destruct (init_resolved p env) as (Ht & _ & _ & Hc).
  fold r in Ht, Hc. rewrite Hl in Ht. unfold Theme.truthy in Ht.
  rewrite bool_decide_eq_false_2 in Ht by exact He.
  assert (Hr' : Theme.toggleTheme (fst r)
                = Theme.setTheme Theme.light (fst r)).
  { unfold Theme.toggleTheme. rewrite Ht.
    now rewrite bool_decide_eq_false_2 by exact Hli. }
  split; [exact Ht|]. split.
  { intros Hin. apply Hc in Hin. congruence. }
  subst r'. rewrite Hr'.
  destruct (setTheme_synced Theme.light (fst r) (snd r)) as (H1 & _ & H3).
  split; [exact H1|]. intros Hin. apply H3 in Hin. discriminate.
Qed.

Lemma init_adopts_unknown_witness :
  Theme.localStorage theme_blue_env !! "theme" = Some "blue"
  /\ "blue" <> "" /\ "blue" <> "light" /\ "blue" <> "dark"
  /\ Theme.theme (fst (Theme.init Theme.initial theme_blue_env)) = "blue".
Proof.
  assert (H1 : Theme.localStorage theme_blue_env !! "theme" = Some "blue")
    by reflexivity.
  assert (H2 : "blue" <> "") by discriminate.
  assert (H3 : "blue" <> "light") by discriminate.
  assert (H4 : "blue" <> "dark") by discriminate.
  repeat (split; [assumption|]).
  exact (proj1 (init_adopts_unknown "blue" Theme.initial theme_blue_env
                  H1 H2 H3 H4)).
Defined.

(** X5. When nothing is persisted, or the persisted value is the empty
    string, the mount effect takes the theme from the system color-scheme
    preference. *)
Theorem init_falls_back (p : Theme.ProviderState) (env : Theme.Env) :
  Theme.localStorage env !! "theme" = None
  \/ Theme.localStorage env !! "theme" = Some "" ->
  Theme.theme (fst (Theme.init p env))
  = system_theme (Theme.prefersDark env).
Proof.
  intros H. destruct (init_resolved p env) as (Ht & _).
  rewrite Ht. destruct H as [H|H]; rewrite H; reflexivity.
Qed.

Lemma init_falls_back_witness :
  (Theme.localStorage theme_empty_env !! "theme" = None
   \/ Theme.localStorage theme_empty_env !! "theme" = Some "")
  /\ Theme.theme (fst (Theme.init Theme.initial theme_empty_env)) = "dark".
Proof.
  assert (H : Theme.localStorage theme_empty_env !! "theme" = None
              \/ Theme.localStorage theme_empty_env !! "theme" = Some "")
    by (right; reflexivity).
  split; [exact H|].
  exact (init_falls_back Theme.initial theme_empty_env H).
Defined.

(** ** ThemeToggle *)

(** X6. Outside a provider the toggle button throws with [useTheme]'s
    message.  Under a mounted provider whose theme is light or dark it
    shows the moon, unrotated, in light mode and the sun, rotated by 180
    degrees, in dark mode; after its click handler has run, the button
    rendered from the new state shows the other icon. *)
Theorem ThemeToggle_flips (t : Theme.Theme) (p : Theme.ProviderState)
    (env : Theme.Env) :
  Theme.mounted p = true ->
  Theme.theme p = Theme.theme_str t ->
  ThemeToggle.ThemeToggle None
  = Throw "useTheme must be used within a ThemeProvider"
  /\ exists v,
      ThemeToggle.ThemeToggle (Theme.ThemeProvider p) = Ok v
      /\ ThemeToggle.icon v
         = match t with
           | Theme.light => ThemeToggle.Moon
           | Theme.dark => ThemeToggle.Sun
           end
      /\ ThemeToggle.rotate v
         = match t with Theme.light => Fin 0 | Theme.dark => Fin 180 end
      /\ exists v',
          ThemeToggle.ThemeToggle
            (Theme.ThemeProvider (fst (ThemeToggle.onClick v env))) = Ok v'
          /\ ThemeToggle.icon v'
             = match t with
               | Theme.light => ThemeToggle.Sun
               | Theme.dark => ThemeToggle.Moon
               end.
Proof.
  intros Hm Ht. split; [reflexivity|].
  destruct p as [th m]. cbn in Hm, Ht. subst m th.
  destruct t; (eexists; split; [reflexivity|]);
    (split; [reflexivity|]); (split; [reflexivity|]);
    eexists; split; reflexivity.
Qed.

Lemma ThemeToggle_flips_witness :
  Theme.mounted theme_dark_provider = true
  /\ Theme.theme theme_dark_provider = Theme.theme_str Theme.dark
  /\ ThemeToggle.ThemeToggle None
     = Throw "useTheme must be used within a ThemeProvider".
Proof.
  split; [reflexivity|]. split; [reflexivity|].
  exact (proj1 (ThemeToggle_flips Theme.dark theme_dark_provider
                  theme_blank_env eq_refl eq_refl)).
Defined.

(** ** useTilt *)

Section TiltMore.

Lemma half_ratio (h : Q) :
  (0 < h)%Q ->
  ((- (h / 2)) / (h / 2) == -1)%Q /\ ((h + - (h / 2)) / (h / 2) == 1)%Q.
Proof.
  intros Hh.
  assert (Hn : ~ (h == 0)%Q) by (intros E; rewrite E in Hh; lra).
  split; field; exact Hn.
Qed.

Lemma unit_ratio (a w : Q) :
  (0 < w)%Q -> (0 <= a)%Q -> (a <= w)%Q ->
  (0 <= a / w * 100)%Q /\ (a / w * 100 <= 100)%Q.
Proof.
  intros Hw H0 H1.
  assert (Hl : (0 <= a / w)%Q) by (apply Qle_shift_div_l; lra).
  assert (Hu : (a / w <= 1)%Q) by (apply Qle_shift_div_r; lra).
  set (r := (a / w)%Q) in *. split; lra.
Qed.

Lemma half_glare (w : Q) : (0 < w)%Q -> ((w / 2) / w * 100 == 50)%Q.
Proof.
  intros Hw.
  assert (Hn : ~ (w == 0)%Q) by (intros E; rewrite E in Hw; lra).
  field. exact Hn.
Qed.

Lemma Qpos_neq0 (w : Q) : (0 < w)%Q -> ~ (w == 0)%Q.
Proof. intros Hw E. rewrite E in Hw. lra. Qed.

Lemma signed_inf_not_finite (q : Q) (m : number) :
  isFinite (signed_inf q * m)%js = false
  /\ isFinite (signed_inf q * - m)%js = false.
Proof.
  unfold signed_inf.
  destruct (Qlt_bool 0 q); [|destruct (Qlt_bool q 0)];
    destruct m as [x| | |]; cbn; unfold signed_inf;
    try (split; reflexivity);
    destruct (Qlt_bool 0 x), (Qlt_bool x 0), (Qlt_bool 0 (- x)),
      (Qlt_bool (- x) 0); split; reflexivity.
Qed.

(** Handlers leave the registered listeners alone. *)
Lemma dispatch_listeners (options : Tilt.TiltOptions) (l : Tilt.Listener)
    (rect : Tilt.DOMRect) (e : Tilt.MouseEvent) (el : Tilt.Element) :
  Tilt.listeners (Tilt.dispatch options l rect e el) = Tilt.listeners el.
Proof.
  unfold Tilt.dispatch. case_bool_decide; [|reflexivity].
  destruct l; unfold Tilt.handleMouseMove, Tilt.handleMouseLeave.
  - destruct (Tilt.rotation options rect e).
    destruct (Tilt.glare options); reflexivity.
  - destruct (Tilt.glare options); reflexivity.
Qed.

Lemma tilt_events_listeners (options : Tilt.TiltOptions)
    (evs : list TiltEvent) (el : Tilt.Element) :
  Tilt.listeners (tilt_events options evs el) = Tilt.listeners el.
Proof.
  revert el. induction evs as [|[[l rect] e] evs IH]; intros el;
    [reflexivity|].
  unfold tilt_events in *. cbn [fold_left]. rewrite IH.
  apply dispatch_listeners.
Qed.

Lemma tilt_events_app (options : Tilt.TiltOptions)
    (evs evs' : list TiltEvent) (el : Tilt.Element) :
  tilt_events options (evs ++ evs') el
  = tilt_events options evs' (tilt_events options evs el).
Proof. unfold tilt_events. apply fold_left_app. Qed.

End TiltMore.

(** X7. With the glare enabled, for an element box of positive size and a
    pointer inside it, the mouse-move handler sets both glare coordinates
    to percentages between 0 and 100; with the pointer at the centre of
    the box both are 50, the value mouse leave resets them to. *)
Theorem tilt_glare_bounds (options : Tilt.TiltOptions) (l t w h : Q)
    (el : Tilt.Element) :
  Tilt.glare options = true -> (0 < w)%Q -> (0 < h)%Q ->
  let rect := {| Tilt.left := Fin l; Tilt.top := Fin t;
                 Tilt.width := Fin w; Tilt.height := Fin h |} in
  (forall x y : Q,
      (l <= x)%Q -> (x <= l + w)%Q -> (t <= y)%Q -> (y <= t + h)%Q ->
      let ev := {| Tilt.clientX := Fin x; Tilt.clientY := Fin y |} in
      exists gx gy,
        Tilt.glare_x (Tilt.handleMouseMove options rect ev el)
        = Some (Fin gx)
        /\ Tilt.glare_y (Tilt.handleMouseMove options rect ev el)
           = Some (Fin gy)
        /\ (0 <= gx)%Q /\ (gx <= 100)%Q /\ (0 <= gy)%Q /\ (gy <= 100)%Q)
  /\ (let centre := {| Tilt.clientX := Fin (l + w / 2);
                       Tilt.clientY := Fin (t + h / 2) |} in
      exists gx gy,
        Tilt.glare_x (Tilt.handleMouseMove options rect centre el)
        = Some (Fin gx)
        /\ Tilt.glare_y (Tilt.handleMouseMove options rect centre el)
           = Some (Fin gy)
        /\ (gx == 50)%Q /\ (gy == 50)%Q).
Proof.
  intros Hg Hw Hh rect.
  pose proof (Qpos_neq0 w Hw) as Hw0. pose proof (Qpos_neq0 h Hh) as Hh0.
  split.
  - intros x y Hx1 Hx2 Hy1 Hy2 ev. unfold Tilt.handleMouseMove.
    destruct (Tilt.rotation options rect ev) as [rx ry]. rewrite Hg.
    cbn [Tilt.glare_x Tilt.glare_y Tilt.clientX Tilt.clientY ev rect
         Tilt.left Tilt.top Tilt.width Tilt.height sub add neg div].
    rewrite (Qeq_bool_false w 0 Hw0), (Qeq_bool_false h 0 Hh0).
    cbn [mul]. eexists _, _. split; [reflexivity|]. split; [reflexivity|].
    destruct (unit_ratio (x + - l) w Hw ltac:(lra) ltac:(lra)) as [A B].
    destruct (unit_ratio (y + - t) h Hh ltac:(lra) ltac:(lra)) as [C D].
    repeat split; assumption.
  - intros centre. unfold Tilt.handleMouseMove.
    destruct (Tilt.rotation options rect centre) as [rx ry]. rewrite Hg.
    cbn [Tilt.glare_x Tilt.glare_y Tilt.clientX Tilt.clientY centre rect
         Tilt.left Tilt.top Tilt.width Tilt.height sub add neg div].
    rewrite (Qeq_bool_false w 0 Hw0), (Qeq_bool_false h 0 Hh0).
    cbn [mul]. eexists _, _. split; [reflexivity|]. split; [reflexivity|].
    split.
    + assert (E : (l + w / 2 + - l == w / 2)%Q) by ring.
      rewrite E. now apply half_glare.
    + assert (E : (t + h / 2 + - t == h / 2)%Q) by ring.
      rewrite E. now apply half_glare.
Qed.

Lemma tilt_glare_bounds_witness :
  Tilt.glare Tilt.default_options = true /\ (0 < 100)%Q
  /\ (0 <= 25)%Q /\ (25 <= 0 + 100)%Q /\ (0 <= 75)%Q /\ (75 <= 0 + 100)%Q
  /\ exists gx gy,
      Tilt.glare_x (Tilt.handleMouseMove Tilt.default_options tilt_rect
                      tilt_inside Tilt.blank) = Some (Fin gx)
      /\ Tilt.glare_y (Tilt.handleMouseMove Tilt.default_options tilt_rect
                         tilt_inside Tilt.blank) = Some (Fin gy)
      /\ (0 <= gx)%Q /\ (gx <= 100)%Q /\ (0 <= gy)%Q /\ (gy <= 100)%Q.
Proof.
  assert (Hx1 : (0 <= 25)%Q) by (apply Qle_bool_iff; reflexivity).
  assert (Hx2 : (25 <= 0 + 100)%Q) by (apply Qle_bool_iff; reflexivity).
  assert (Hy1 : (0 <= 75)%Q) by (apply Qle_bool_iff; reflexivity).
  assert (Hy2 : (75 <= 0 + 100)%Q) by (apply Qle_bool_iff; reflexivity).
  repeat (split; [first [reflexivity | assumption]|]).
  exact (proj1 (tilt_glare_bounds Tilt.default_options 0%Q 0%Q 100%Q 100%Q
                  Tilt.blank eq_refl eq_refl eq_refl)
           25%Q 75%Q Hx1 Hx2 Hy1 Hy2).
Defined.

(** X8. The bound on the angles is attained at the corners, with the
    documented signs: at the top-left corner of the box the angle about
    the horizontal axis is [+max] and the one about the vertical axis is
    [-max]; at the bottom-right corner they are [-max] and [+max]. *)
Theorem tilt_corners (options : Tilt.TiltOptions) (m l t w h : Q) :
  Tilt.max options = Fin m -> (0 < w)%Q -> (0 < h)%Q ->
  let rect := {| Tilt.left := Fin l; Tilt.top := Fin t;
                 Tilt.width := Fin w; Tilt.height := Fin h |} in
  let top_left := {| Tilt.clientX := Fin l; Tilt.clientY := Fin t |} in
  let bottom_right :=
    {| Tilt.clientX := Fin (l + w); Tilt.clientY := Fin (t + h) |} in
  eqb (fst (Tilt.rotation options rect top_left)) (Fin m) = true
  /\ eqb (snd (Tilt.rotation options rect top_left)) (Fin (- m)) = true
  /\ eqb (fst (Tilt.rotation options rect bottom_right)) (Fin (- m)) = true
  /\ eqb (snd (Tilt.rotation options rect bottom_right)) (Fin m) = true.
Proof.
  intros Hmax Hw Hh rect top_left bottom_right.
  destruct (half_bounds w 0) as (Hw2 & _); try lra.
  destruct (half_bounds h 0) as (Hh2 & _); try lra.
  destruct (half_ratio w Hw) as [Wn Wp].
  destruct (half_ratio h Hh) as [Hn Hp].
  unfold Tilt.rotation. rewrite Hmax.
  cbn [Tilt.left Tilt.top Tilt.width Tilt.height rect top_left bottom_right
       Tilt.clientX Tilt.clientY fst snd sub add neg div].
  rewrite (Qeq_bool_false 2 0) by (intros E; discriminate E).
  cbn [sub add neg div].
  rewrite (Qeq_bool_false (w / 2) 0 (Qpos_neq0 _ Hw2)),
          (Qeq_bool_false (h / 2) 0 (Qpos_neq0 _ Hh2)).
  cbn [mul eqb neg].
  assert (E1 : (t + - t + - (h / 2) == - (h / 2))%Q) by ring.
  assert (E2 : (l + - l + - (w / 2) == - (w / 2))%Q) by ring.
  assert (E3 : (t + h + - t + - (h / 2) == h + - (h / 2))%Q) by ring.
  assert (E4 : (l + w + - l + - (w / 2) == w + - (w / 2))%Q) by ring.
  repeat split; apply Qeq_bool_iff.
  - rewrite E1, Hn. ring.
  - rewrite E2, Wn. ring.
  - rewrite E3, Hp. ring.
  - rewrite E4, Wp. ring.
Qed.

Lemma tilt_corners_witness :
  Tilt.max Tilt.default_options = Fin 15 /\ (0 < 100)%Q
  /\ eqb (fst (Tilt.rotation Tilt.default_options
                 {| Tilt.left := Fin 0; Tilt.top := Fin 0;
                    Tilt.width := Fin 100; Tilt.height := Fin 100 |}
                 {| Tilt.clientX := Fin 0; Tilt.clientY := Fin 0 |}))
         (Fin 15) = true.
Proof.
  split; [reflexivity|]. split; [reflexivity|].
  exact (proj1 (tilt_corners Tilt.default_options 15%Q 0%Q 0%Q 100%Q 100%Q
                  eq_refl eq_refl eq_refl)).
Defined.

(** X9. For an element box of zero width the angle about the vertical
    axis is never a finite number (it is NaN or an infinity), wherever the
    pointer is and whatever the maximum; likewise the angle about the
    horizontal axis for a box of zero height. *)
Theorem tilt_zero_size (options : Tilt.TiltOptions) (l t w h x y : Q) :
  let rect := {| Tilt.left := Fin l; Tilt.top := Fin t;
                 Tilt.width := Fin w; Tilt.height := Fin h |} in
  let ev := {| Tilt.clientX := Fin x; Tilt.clientY := Fin y |} in
  ((w == 0)%Q ->
     isFinite (snd (Tilt.rotation options rect ev)) = false)
  /\ ((h == 0)%Q ->
      isFinite (fst (Tilt.rotation options rect ev)) = false).
Proof.
  intros rect ev. unfold Tilt.rotation.
  cbn [Tilt.left Tilt.top Tilt.width Tilt.height rect ev
       Tilt.clientX Tilt.clientY fst snd sub add neg div].
  rewrite (Qeq_bool_false 2 0) by (intros E; discriminate E).
  cbn [sub add neg div].
  split; intros Hz.
  - assert (E : Qeq_bool (w / 2) 0 = true).
    { apply Qeq_bool_iff. rewrite Hz. reflexivity. }
    rewrite E. apply signed_inf_not_finite.
  - assert (E : Qeq_bool (h / 2) 0 = true).
    { apply Qeq_bool_iff. rewrite Hz. reflexivity. }
    rewrite E. apply signed_inf_not_finite.
Qed.

Lemma tilt_zero_size_witness :
  (0 == 0)%Q
  /\ isFinite (snd (Tilt.rotation Tilt.default_options tilt_flat_rect
                      tilt_inside)) = false.
Proof.
  split; [reflexivity|].
  exact (proj1 (tilt_zero_size Tilt.default_options 10 10 0 100 25 75)
           (Qeq_refl 0)).
Defined.

(** X10. Under [prefers-reduced-motion] the hook leaves the element as it
    is, and no mouse event changes it afterwards.  Otherwise, on an
    element that had no listeners, after any sequence of mouse events
    that ends with a mouse leave the transform is the identity (no
    rotation, scale 1) and, with the glare enabled, the glare is at
    (50, 50). *)
Theorem tilt_leave_resets (options : Tilt.TiltOptions) (el : Tilt.Element)
    (evs : list TiltEvent) (rect : Tilt.DOMRect) (e : Tilt.MouseEvent) :
  Tilt.listeners el = [] ->
  (Tilt.effect options true (Some el) = Some el
   /\ tilt_events options evs el = el)
  /\ exists el1,
      Tilt.effect options false (Some el) = Some el1
      /\ let el2 := tilt_events options
                      (evs ++ [(Tilt.MouseLeave, rect, e)]) el1 in
         Tilt.transform el2 = Some tilt_identity
         /\ (Tilt.glare options = true ->
             Tilt.glare_x el2 = Some (Fin 50)
             /\ Tilt.glare_y el2 = Some (Fin 50)).
Proof.
  intros Hl. split.
  - split; [reflexivity|].
    assert (H : forall evs el, Tilt.listeners el = [] ->
                               tilt_events options evs el = el).
    { clear. intros evs. induction evs as [|[[l r] e] evs IH];
        intros el Hl; [reflexivity|].
      unfold tilt_events in *. cbn [fold_left].
      unfold Tilt.dispatch at 2. rewrite Hl.
      rewrite bool_decide_eq_false_2 by (apply not_elem_of_nil).
      now apply IH. }
    now apply H.
  - eexists. split; [reflexivity|]. intros el2. subst el2.
    rewrite tilt_events_app.
    set (el' := tilt_events options evs _).
    assert (Hl' : Tilt.listeners el' = [Tilt.MouseMove; Tilt.MouseLeave]).
    { subst el'. rewrite tilt_events_listeners. cbn. now rewrite Hl. }
    unfold tilt_events. cbn [fold_left]. unfold Tilt.dispatch.
    rewrite Hl'.
    rewrite bool_decide_eq_true_2
      by (apply elem_of_cons; right; apply elem_of_cons; now left).
    unfold Tilt.handleMouseLeave.
    destruct (Tilt.glare options); cbn; split; auto; discriminate.
Qed.

Lemma tilt_leave_resets_witness :
  Tilt.listeners Tilt.blank = []
  /\ tilt_events Tilt.default_options
       [(Tilt.MouseMove, tilt_rect, tilt_inside)] Tilt.blank = Tilt.blank.
Proof.
  split; [reflexivity|].
  exact (proj2 (proj1 (tilt_leave_resets Tilt.default_options Tilt.blank
                         [(Tilt.MouseMove, tilt_rect, tilt_inside)]
                         tilt_rect tilt_inside eq_refl))).
Defined.

(** ** TypingAnimation *)

Section TypingMore.
Import TypingAnimation.
Variable props : Props.

Lemma substring_full (t : string) :
  String.substring 0 (String.length t) t = t.
Proof. induction t as [|c t IH]; cbn; [reflexivity|]. now rewrite IH. Qed.

Lemma substring_substring (j k : nat) (t : string) :
  (j <= k)%nat ->
  String.substring 0 j (String.substring 0 k t) = String.substring 0 j t.
Proof.
  revert j k. induction t as [|c t IH]; intros [|j] [|k] H; cbn;
    try reflexivity; try lia.
  f_equal. apply IH. lia.
Qed.

Lemma typing_run_add (a b : nat) (s : State) :
  typing_run props (a + b) s
  = match typing_run props a s with
    | Ok s' => typing_run props b s'
    | Throw msg => Throw msg
    end.
Proof.
  revert s. induction a as [|a IH]; intros s; cbn; [reflexivity|].
  destruct (next_state props s); [apply IH|reflexivity].
Qed.

(** One typing step from a proper prefix. *)
Lemma next_typing (i j : nat) (t : string) :
  texts props !! i = Some t -> (j < String.length t)%nat ->
  next_state props (typing_prefix i j t false)
  = Ok (typing_prefix i (S j) t false).
Proof.
  intros Hl Hj. unfold next_state, effect.
  cbn [typing_prefix isPaused isDeleting currentText currentTextIndex negb
       andb]. rewrite Hl.
  rewrite bool_decide_eq_false_2.
  2:{ intros E. inversion E as [E'].
      apply (f_equal String.length) in E'.
      rewrite length_substring in E'. lia. }
  cbn [negb fire]. unfold typing_prefix, setCurrentText; cbn. f_equal.
  f_equal.
  replace (Z.of_nat (String.length (String.substring 0 j t)) + 1)
    with (Z.of_nat (S j)) by (rewrite length_substring; lia).
  rewrite slice_take. f_equal. lia.
Qed.

(** One deleting step from a non-empty prefix. *)
Lemma next_deleting (i j : nat) (t : string) :
  (S j <= String.length t)%nat ->
  next_state props (typing_prefix i (S j) t true)
  = Ok (typing_prefix i j t true).
Proof.
  intros Hj. unfold next_state, effect.
  cbn [typing_prefix isPaused isDeleting currentText currentTextIndex negb
       andb].
  rewrite bool_decide_eq_false_2.
  2:{ intros E. apply (f_equal String.length) in E.
      rewrite length_substring in E.
      change (String.length "") with 0%nat in E. lia. }
  cbn [negb fire]. unfold typing_prefix, setCurrentText; cbn [currentText
    currentTextIndex isDeleting isPaused]. f_equal. f_equal.
  rewrite slice_drop_last, length_substring.
  replace (Nat.min (S j) (String.length t) - 1)%nat with j by lia.
  apply substring_substring. lia.
Qed.

Lemma run_typing (i : nat) (t : string) (k : nat) :
  forall j, texts props !! i = Some t -> (j + k <= String.length t)%nat ->
  typing_run props k (typing_prefix i j t false)
  = Ok (typing_prefix i (j + k) t false).
Proof.
  induction k as [|k IH]; intros j Hl Hk.
  - cbn. now rewrite Nat.add_0_r.
  - cbn [typing_run]. rewrite next_typing by (auto; lia).
    rewrite IH by (auto; lia). f_equal. f_equal. lia.
Qed.

Lemma run_deleting (i : nat) (t : string) (k : nat) :
  forall j, (k <= j)%nat -> (j <= String.length t)%nat ->
  typing_run props k (typing_prefix i j t true)
  = Ok (typing_prefix i (j - k) t true).
Proof.
  induction k as [|k IH]; intros j Hk Hj.
  - cbn. now rewrite Nat.sub_0_r.
  - destruct j as [|j]; [lia|]. cbn [typing_run].
    rewrite next_deleting by lia. rewrite IH by lia. reflexivity.
Qed.

(** The effect always does something. *)
Lemma effect_not_idle (s : State) : effect props s <> Idle.
Proof.
  unfold effect. destruct (isPaused s); [discriminate|].
  destruct (isDeleting s); cbn; case_bool_decide; discriminate.
Qed.

End TypingMore.

(** X11. One full cycle on string number [i], [t] say, of a list: from the
    state that begins on it, the first [k <= length t] transitions type
    the first [k] characters, and after [2 * length t + 3] transitions
    (typing, the pause, deleting, the advance) the machine begins on
    string number [(i + 1) mod n], where [n] is the length of the list. *)
Theorem typing_full_cycle (props : TypingAnimation.Props) (i : nat)
    (t : string) :
  TypingAnimation.texts props !! i = Some t ->
  (forall k, (k <= String.length t)%nat ->
     typing_run props k (typing_at i) = Ok (typing_prefix i k t false))
  /\ typing_run props (2 * String.length t + 3) (typing_at i)
     = Ok (typing_at ((i + 1) `mod` length (TypingAnimation.texts props))).
Proof.
  intros Hl.
  assert (H0 : typing_at i = typing_prefix i 0 t false).
  { unfold typing_at, typing_prefix. f_equal. destruct t; reflexivity. }
  assert (Htype : forall k, (k <= String.length t)%nat ->
            typing_run props k (typing_at i)
            = Ok (typing_prefix i k t false)).
  { intros k Hk. rewrite H0. now rewrite (run_typing props i t k 0 Hl). }
  split; [exact Htype|].
  replace (2 * String.length t + 3)%nat
    with (String.length t + (2 + (String.length t + 1)))%nat by lia.
  rewrite typing_run_add, (Htype _ (le_n _)).
  rewrite typing_run_add.
  assert (Hpause : typing_run props 2
                     (typing_prefix i (String.length t) t false)
                   = Ok (typing_prefix i (String.length t) t true)).
  { unfold typing_prefix. rewrite substring_full.
    cbn [typing_run]. unfold TypingAnimation.next_state at 1.
    unfold TypingAnimation.effect at 1. cbn. rewrite Hl.
    rewrite bool_decide_eq_true_2 by reflexivity. cbn. reflexivity. }
  rewrite Hpause, typing_run_add.
  rewrite (run_deleting props i t _ _ (le_n _) (le_n _)).
  rewrite Nat.sub_diag. cbn [typing_run].
  unfold TypingAnimation.next_state, TypingAnimation.effect.
  replace (String.substring 0 0 t) with "" in * by (destruct t; reflexivity).
  unfold typing_prefix.
  replace (String.substring 0 0 t) with "" by (destruct t; reflexivity).
  cbn. reflexivity.
Qed.

Lemma typing_full_cycle_witness :
  TypingAnimation.texts typing_demo !! 1%nat = Some "BB"
  /\ (1 <= String.length "BB")%nat
  /\ typing_run typing_demo 1 (typing_at 1)
     = Ok (typing_prefix 1 1 "BB" false)
  /\ typing_run typing_demo 7 (typing_at 1) = Ok (typing_at 0).
Proof.
  assert (Hk : (1 <= String.length "BB")%nat) by (cbn; lia).
  split; [reflexivity|]. split; [exact Hk|]. split.
  - exact (proj1 (typing_full_cycle typing_demo 1 "BB" eq_refl) 1%nat Hk).
  - exact (proj2 (typing_full_cycle typing_demo 1 "BB" eq_refl)).
Defined.

(** X12. In every reachable state, for any list, the pause never overlaps
    deleting, and while paused the rendered string is the whole current
    string. *)
Theorem typing_pause_exclusive (props : TypingAnimation.Props)
    (s : TypingAnimation.State) :
  TypingAnimation.reachable props s ->
  TypingAnimation.isPaused s = true ->
  TypingAnimation.isDeleting s = false
  /\ TypingAnimation.texts props !! TypingAnimation.currentTextIndex s
     = Some (TypingAnimation.currentText s).
Proof.
  intros Hr. induction Hr as [|s s' _ IH Hn]; [discriminate|].
  unfold TypingAnimation.next_state, TypingAnimation.effect in Hn.
  destruct (TypingAnimation.isPaused s) eqn:Ep.
  { cbn in Hn. inversion Hn; subst. discriminate. }
  destruct (TypingAnimation.isDeleting s) eqn:Ed; cbn in Hn.
  - case_bool_decide; cbn in Hn; inversion Hn; subst; cbn;
      rewrite ?Ep; discriminate.
  - case_bool_decide as Ee; cbn in Hn.
    + inversion Hn; subst. cbn. intros _. split; [exact Ed|].
      symmetry. exact Ee.
    + destruct (TypingAnimation.texts props
                  !! TypingAnimation.currentTextIndex s);
        cbn in Hn; [|discriminate].
      inversion Hn; subst. cbn. rewrite Ep. discriminate.
Qed.

Lemma typing_pause_exclusive_witness :
  TypingAnimation.reachable typing_demo
    (TypingAnimation.setIsPaused true typing_demo_typed)
  /\ TypingAnimation.isPaused
       (TypingAnimation.setIsPaused true typing_demo_typed) = true
  /\ TypingAnimation.isDeleting
       (TypingAnimation.setIsPaused true typing_demo_typed) = false.
Proof.
  assert (Hr : TypingAnimation.reachable typing_demo
                 (TypingAnimation.setIsPaused true typing_demo_typed)).
  { apply (TypingAnimation.reach_next typing_demo typing_demo_typed);
      [|reflexivity].
    apply (TypingAnimation.reach_next typing_demo TypingAnimation.initial);
      [|reflexivity].
    constructor. }
  split; [exact Hr|]. split; [reflexivity|].
  exact (proj1 (typing_pause_exclusive typing_demo _ Hr eq_refl)).
Defined.

(** X13. For a non-empty list the machine never halts and never throws:
    every reachable state has a next state, and that state differs from
    it. *)
Theorem typing_always_moves (props : TypingAnimation.Props)
    (s : TypingAnimation.State) :
  TypingAnimation.texts props <> [] ->
  TypingAnimation.reachable props s ->
  exists s', TypingAnimation.next_state props s = Ok s' /\ s' <> s.
Proof.
  intros Hne Hr.
  destruct (typing_inv_reachable props s Hne Hr) as (full & Hl & Hp).
  unfold TypingAnimation.next_state, TypingAnimation.effect. rewrite Hl.
  destruct s as [i cur del pau]. cbn in *.
  destruct pau.
  { eexists. split; [reflexivity|]. discriminate. }
  destruct del; cbn.
  - case_bool_decide as Ee; cbn.
    + eexists. split; [reflexivity|]. discriminate.
    + eexists. split; [reflexivity|].
      destruct (deleting_step_shrinks cur Ee) as [_ Hlen].
      intros E. inversion E as [E']. rewrite E' in Hlen. lia.
  - case_bool_decide as Ee; cbn.
    + eexists. split; [reflexivity|]. discriminate.
    + eexists. split; [reflexivity|].
      assert (Hne' : cur <> full) by congruence.
      pose proof (prefix_proper_length _ _ Hp Hne') as Hlt.
      intros E. inversion E as [E'].
      apply (f_equal String.length) in E'.
      replace (Z.of_nat (String.length cur) + 1)
        with (Z.of_nat (S (String.length cur))) in E' by lia.
      rewrite slice_take, length_substring in E'. lia.
Qed.

Lemma typing_always_moves_witness :
  TypingAnimation.texts typing_demo <> []
  /\ TypingAnimation.reachable typing_demo TypingAnimation.initial
  /\ exists s', TypingAnimation.next_state typing_demo
                  TypingAnimation.initial = Ok s'
                /\ s' <> TypingAnimation.initial.
Proof.
  assert (Hne : TypingAnimation.texts typing_demo <> []) by discriminate.
  split; [exact Hne|]. split; [constructor|].
  exact (typing_always_moves typing_demo TypingAnimation.initial Hne
           (TypingAnimation.reach_initial typing_demo)).
Defined.

(** ** AnimatedCounter *)

Section CounterMore.
Import AnimatedCounter.


(** The count a frame leaves, for [0 <= end] and a positive duration,
    when the frame is not sampled before [startTime]. *)
Lemma frame_count_range (e d : Q) (startTime t : Z) :
  (0 <= e)%Q -> (0 < d)%Q -> (startTime <= t)%Z ->
  exists q,
    frame_count {| end_ := Fin e; duration := Fin d |} startTime t = Fin q
    /\ (0 <= q)%Q /\ (q <= e)%Q.
Proof.
  intros He Hd Ht.
  assert (Hq : (inject_Z startTime <= inject_Z t)%Q) by now rewrite <- Zle_Qle.
  unfold frame_count.
  destruct (loop_continues _ startTime t) eqn:H1; cbn [end_].
  - apply loop_continues_Fin in H1.
    rewrite eased_count_Fin by (apply Qpos_neq0; exact Hd).
    cbn [floor]. eexists. split; [reflexivity|].
    set (pm := Qmin ((inject_Z t - inject_Z startTime) / d) 1).
    assert (Hp1 : (pm <= 1)%Q) by apply Q.le_min_r.
    assert (Hp0 : (0 <= pm)%Q).
    { apply Q.min_glb; [|lra]. apply Qle_shift_div_l; lra. }
    assert (Ha : (0 <= ease_out pm * e)%Q).
    { apply Qmult_le_0_compat; [now apply ease_out_nonneg|exact He]. }
    assert (Hb : (ease_out pm * e <= e)%Q).
    { assert (H := ease_out_le_1 pm).
      assert (Hm : (ease_out pm * e <= 1 * e)%Q)
        by (apply Qmult_le_compat_r; assumption).
      lra. }
    split.
    + change 0%Q with (inject_Z 0). rewrite <- Zle_Qle.
      change 0%Z with (Qfloor 0). now apply Qfloor_resp_le.
    + eapply Qle_trans; [apply Qfloor_le|exact Hb].
  - exists e. split; [reflexivity|]. split; [exact He|apply Qle_refl].
Qed.

(** What the entries of one batch do to a connected, fresh instance. *)
Lemma entries_fold (now : Z) (entries : list bool) :
  forall c : Instance,
    let c' := fold_left (on_entry false now) entries c in
    count c' = count c
    /\ observer c' = observer c
    /\ hasAnimated c' = hasAnimated c || existsb id entries
    /\ frames c'
       = frames c ++ map (fun _ => now) (filter (fun b => b = true) entries).
Proof.
  induction entries as [|b entries IH]; intros c c'.
  - subst c'. cbn. rewrite orb_false_r, app_nil_r. auto.
  - subst c'. cbn [fold_left].
    destruct (IH (on_entry false now c b)) as (H1 & H2 & H3 & H4).
    rewrite H1, H2, H3, H4. destruct b.
    + rewrite filter_cons_True by reflexivity.
      unfold on_entry, animateCounter, setHasAnimated, requestAnimationFrame.
      cbn [andb negb count observer hasAnimated frames map existsb id orb].
      rewrite <- app_assoc, orb_true_r. repeat split; auto.
    + rewrite filter_cons_False by discriminate.
      unfold on_entry. cbn [andb existsb id orb]. auto.
Qed.

End CounterMore.

Section CounterBracket.
Import AnimatedCounter.
Variable e : Q.
Variable d : number.
Variable startTime : Z.
Hypothesis e_pos : (0 < e)%Q.






End CounterBracket.





(** X15. For [end >= 0] and a finite positive duration, every count left
    by a frame sampled at or after [startTime] is a finite number between
    0 and [end]: the counter never shows a negative value and never
    overshoots its target. *)
Theorem counter_range (e d : Q) (startTime : Z) (times : list Z) :
  (0 <= e)%Q -> (0 < d)%Q -> Forall (Z.le startTime) times ->
  Forall (fun v => exists q, v = Fin q /\ (0 <= q)%Q /\ (q <= e)%Q)
    (AnimatedCounter.displayed
       {| AnimatedCounter.end_ := Fin e;
          AnimatedCounter.duration := Fin d |}
       times (counter_started startTime)).
Proof.
  intros He Hd Hall.
  set (props := {| AnimatedCounter.end_ := Fin e;
                   AnimatedCounter.duration := Fin d |}).
  assert (H : forall c,
            AnimatedCounter.frames c = [startTime]
            \/ (AnimatedCounter.frames c = []
                /\ AnimatedCounter.count c = Fin e) ->
            Forall (fun v => exists q, v = Fin q /\ (0 <= q)%Q /\ (q <= e)%Q)
              (AnimatedCounter.displayed props times c)).
  { induction Hall as [|t times Ht Hall IH]; intros c Hc; [constructor|].
    cbn [AnimatedCounter.displayed]. destruct Hc as [Hf|[Hf Hcnt]].
    - rewrite (frame_running props startTime t c Hf).
      cbn [AnimatedCounter.count]. constructor.
      + now apply frame_count_range.
      + apply IH. destruct (loop_continues props startTime t) eqn:H1.
        * left. reflexivity.
        * right. split; [reflexivity|].
          cbn [AnimatedCounter.count]. unfold frame_count. now rewrite H1.
    - rewrite (frame_idle props t c Hf). constructor.
      + exists e. split; [exact Hcnt|]. split; [exact He|apply Qle_refl].
      + apply IH. right. split; assumption. }
  apply H. left. reflexivity.
Qed.

Lemma counter_range_witness :
  (0 <= 1000)%Q /\ (0 < 2000)%Q /\ Forall (Z.le 1000) [1016; 1500; 3000]
  /\ Forall (fun v => exists q, v = Fin q /\ (0 <= q)%Q /\ (q <= 1000)%Q)
       (AnimatedCounter.displayed counter_demo [1016; 1500; 3000]
          (counter_started 1000)).
Proof.
  assert (He : (0 <= 1000)%Q) by (apply Qle_bool_iff; reflexivity).
  assert (Hall : Forall (Z.le 1000) [1016; 1500; 3000])
    by (repeat constructor; lia).
  split; [exact He|]. split; [reflexivity|]. split; [exact Hall|].
  exact (counter_range 1000 2000 1000 [1016; 1500; 3000] He eq_refl Hall).
Defined.

(** X16. With a duration that is NaN, -Infinity, zero or negative, and
    any [end], the first frame at or after [startTime] already leaves
    [end] as the count and ends the loop. *)
Theorem counter_degenerate_duration (e d : number) (startTime t : Z) :
  degenerate_duration d -> (startTime <= t)%Z ->
  AnimatedCounter.frame
    {| AnimatedCounter.end_ := e; AnimatedCounter.duration := d |}
    t (counter_started startTime)
  = counter_done
      {| AnimatedCounter.end_ := e; AnimatedCounter.duration := d |}.
Proof.
  intros Hd Ht.
  rewrite (frame_running _ startTime t (counter_started startTime) eq_refl).
  assert (H : loop_continues
                {| AnimatedCounter.end_ := e; AnimatedCounter.duration := d |}
                startTime t = false).
  { unfold loop_continues, of_Z. cbn [AnimatedCounter.duration].
    destruct d as [q| | |]; cbn in Hd |- *; try reflexivity; [|contradiction].
    apply Qlt_bool_false.
    assert (Hq : (inject_Z startTime <= inject_Z t)%Q)
      by now rewrite <- Zle_Qle.
    lra. }
  unfold frame_count. rewrite H. reflexivity.
Qed.

Lemma counter_degenerate_duration_witness :
  degenerate_duration (Fin 0) /\ (1000 <= 1000)%Z
  /\ AnimatedCounter.count
       (AnimatedCounter.frame
          {| AnimatedCounter.end_ := Fin 99;
             AnimatedCounter.duration := Fin 0 |}
          1000 (counter_started 1000))
     = Fin 99.
Proof.
  assert (Hd : degenerate_duration (Fin 0))
    by (apply Qle_bool_iff; reflexivity).
  assert (Ht : (1000 <= 1000)%Z) by lia.
  split; [exact Hd|]. split; [exact Ht|].
  exact (f_equal AnimatedCounter.count
           (counter_degenerate_duration (Fin 99) (Fin 0) 1000 1000 Hd Ht)).
Defined.

(** X17. With an infinite duration and a finite [end] the loop never
    ends and the count never leaves 0: after any sequence of frames a
    frame callback is still pending and every count shown equals 0. *)
Theorem counter_infinite_duration (e : Q) (startTime : Z) (times : list Z) :
  let props := {| AnimatedCounter.end_ := Fin e;
                  AnimatedCounter.duration := PInf |} in
  AnimatedCounter.frames
    (counter_frames props times (counter_started startTime)) = [startTime]
  /\ Forall (fun v => eqb v (Fin 0) = true)
       (AnimatedCounter.displayed props times (counter_started startTime)).
Proof.
  intros props.
  assert (H : forall c, AnimatedCounter.frames c = [startTime] ->
            AnimatedCounter.frames (counter_frames props times c)
            = [startTime]
            /\ Forall (fun v => eqb v (Fin 0) = true)
                 (AnimatedCounter.displayed props times c)).
  { induction times as [|t times IH]; intros c Hf.
    - split; [exact Hf|constructor].
    - unfold counter_frames in *. cbn [fold_left AnimatedCounter.displayed].
      rewrite (frame_running props startTime t c Hf).
      change (loop_continues props startTime t) with true. cbn iota.
      destruct (IH {| AnimatedCounter.count := frame_count props startTime t;
                      AnimatedCounter.hasAnimated :=
                        AnimatedCounter.hasAnimated c;
                      AnimatedCounter.observer := AnimatedCounter.observer c;
                      AnimatedCounter.frames := [startTime] |} eq_refl)
        as [H1 H2].
      split; [exact H1|]. constructor; [|exact H2].
      cbn [AnimatedCounter.count]. unfold frame_count.
      change (loop_continues props startTime t) with true. cbn iota.
      unfold props. rewrite eased_count_PInf. cbn [floor eqb].
      apply Qeq_bool_iff.
      assert (E : (ease_out 0 * e == 0)%Q) by (unfold ease_out; ring).
      rewrite E. reflexivity. }
  apply H. reflexivity.
Qed.

(** X18. Once a frame at or after [startTime + duration] has run, for a
    finite positive duration, the counter is finished for good: its count
    is [end], nothing is pending and no observer is connected, and no
    later frame and no later batch of intersection entries changes it. *)
Theorem counter_done_is_final (e : number) (d : Q) (startTime t : Z) :
  (0 < d)%Q -> (d <= inject_Z t - inject_Z startTime)%Q ->
  let props := {| AnimatedCounter.end_ := e;
                  AnimatedCounter.duration := Fin d |} in
  let c := AnimatedCounter.frame props t (counter_started startTime) in
  c = counter_done props
  /\ forall (t' now : Z) (entries : list bool),
      AnimatedCounter.frame props t' c = c
      /\ AnimatedCounter.intersect entries now c = c.
Proof.
  intros Hd Hel props c.
  assert (Hc : c = counter_done props).
  { subst c.
    rewrite (frame_running _ startTime t (counter_started startTime) eq_refl).
    assert (H : loop_continues props startTime t = false).
    { unfold loop_continues, of_Z, props. cbn [AnimatedCounter.duration add lt].
      apply Qlt_bool_false. lra. }
    unfold frame_count. rewrite H. reflexivity. }
  split; [exact Hc|]. intros t' now entries. rewrite Hc.
  split; reflexivity.
Qed.

Lemma counter_done_is_final_witness :
  (0 < 2000)%Q /\ (2000 <= inject_Z 3000 - inject_Z 1000)%Q
  /\ AnimatedCounter.frame counter_demo 3000 (counter_started 1000)
     = counter_done counter_demo.
Proof.
  assert (H : (2000 <= inject_Z 3000 - inject_Z 1000)%Q)
    by (apply Qle_bool_iff; reflexivity).
  split; [reflexivity|]. split; [exact H|].
  exact (proj1 (counter_done_is_final (Fin 1000) 2000 1000 3000 eq_refl H)).
Defined.

(** X19. A freshly mounted counter waits for visibility: a batch in which
    no entry is intersecting leaves it exactly as it was, observer still
    connected.  The first batch that contains an intersecting entry sets
    the has-animated flag, disconnects the observer and leaves at least
    one frame callback pending, each with the time of the batch as its
    start time. *)
Theorem counter_waits_for_visibility (props : AnimatedCounter.Props)
    (c0 : AnimatedCounter.Instance) (entries : list bool) (now : Z) :
  AnimatedCounter.mount props = Ok c0 ->
  (Forall (fun b => b = false) entries ->
     AnimatedCounter.intersect entries now c0 = c0)
  /\ (In true entries ->
      let c := AnimatedCounter.intersect entries now c0 in
      AnimatedCounter.hasAnimated c = true
      /\ AnimatedCounter.observer c = None
      /\ AnimatedCounter.count c = Fin 0
      /\ AnimatedCounter.frames c <> []
      /\ Forall (fun s => s = now) (AnimatedCounter.frames c)).
Proof.
  intros Hm. inversion Hm; subst c0; clear Hm.
  set (c0 := AnimatedCounter.effect _).
  assert (Hobs : AnimatedCounter.observer c0 = Some false) by reflexivity.
  unfold AnimatedCounter.intersect. rewrite Hobs.
  destruct (entries_fold now entries c0) as (H1 & H2 & H3 & H4).
  set (c1 := fold_left (AnimatedCounter.on_entry false now) entries c0) in *.
  split.
  - intros Hall.
    assert (Hex : existsb id entries = false).
    { clear -Hall. induction Hall as [|b l Hb _ IH]; [reflexivity|].
      subst b. exact IH. }
    assert (Hfl : filter (fun b => b = true) entries = []).
    { clear -Hall. induction Hall as [|b l Hb _ IH]; [reflexivity|].
      subst b. rewrite filter_cons_False by discriminate. exact IH. }
    rewrite Hex in H3. rewrite Hfl in H4. cbn in H3, H4.
    unfold AnimatedCounter.commit. rewrite H3. cbn.
    destruct c1 as [cn ha ob fr]. cbn in *. subst. reflexivity.
  - intros Hin.
    assert (Hex : existsb id entries = true).
    { apply existsb_exists. exists true. split; [|reflexivity].
      exact Hin. }
    rewrite Hex in H3. cbn in H3.
    assert (Hc : AnimatedCounter.commit (AnimatedCounter.hasAnimated c0) c1
                 = AnimatedCounter.effect (AnimatedCounter.cleanup c1)).
    { unfold AnimatedCounter.commit. rewrite H3. reflexivity. }
    rewrite Hc. unfold AnimatedCounter.effect, AnimatedCounter.cleanup.
    cbn [AnimatedCounter.set_observer AnimatedCounter.hasAnimated].
    rewrite H3.
    unfold AnimatedCounter.set_observer.
    cbn [AnimatedCounter.hasAnimated AnimatedCounter.observer
         AnimatedCounter.count AnimatedCounter.frames].
    rewrite H1, H4.
    change (AnimatedCounter.count c0) with (Fin 0).
    change (AnimatedCounter.frames c0) with (@nil Z). cbn [app].
    repeat split; auto.
    + intros E. apply (f_equal (@length Z)) in E.
      rewrite length_map in E. cbn in E.
      apply length_zero_iff_nil in E.
      assert (Hin' : true ∈ filter (fun b => b = true) entries).
      { apply list_elem_of_filter. split; [reflexivity|].
        now apply list_elem_of_In. }
      rewrite E in Hin'. now apply not_elem_of_nil in Hin'.
    + apply Forall_forall. intros x Hx. apply list_elem_of_In in Hx.
      apply in_map_iff in Hx.
      destruct Hx as (b & Hb & _). now symmetry.
Qed.

Lemma counter_waits_for_visibility_witness :
  AnimatedCounter.mount counter_demo
  = Ok (AnimatedCounter.effect
          {| AnimatedCounter.count := Fin 0;
             AnimatedCounter.hasAnimated := false;
             AnimatedCounter.observer := None;
             AnimatedCounter.frames := [] |})
  /\ Forall (fun b => b = false) [false; false]
  /\ In true [false; true]
  /\ AnimatedCounter.intersect [false; false] 1000
       (AnimatedCounter.effect
          {| AnimatedCounter.count := Fin 0;
             AnimatedCounter.hasAnimated := false;
             AnimatedCounter.observer := None;
             AnimatedCounter.frames := [] |})
     = AnimatedCounter.effect
         {| AnimatedCounter.count := Fin 0;
            AnimatedCounter.hasAnimated := false;
            AnimatedCounter.observer := None;
            AnimatedCounter.frames := [] |}
  /\ AnimatedCounter.hasAnimated
       (AnimatedCounter.intersect [false; true] 1000
          (AnimatedCounter.effect
             {| AnimatedCounter.count := Fin 0;
                AnimatedCounter.hasAnimated := false;
                AnimatedCounter.observer := None;
                AnimatedCounter.frames := [] |}))
     = true.
Proof.
  assert (Hall : Forall (fun b => b = false) [false; false])
    by (repeat constructor).
  assert (Hin : In true [false; true]) by (right; left; reflexivity).
  split; [reflexivity|]. split; [exact Hall|]. split; [exact Hin|]. split.
  - exact (proj1 (counter_waits_for_visibility counter_demo _ [false; false]
                    1000 eq_refl) Hall).
  - exact (proj1 (proj2 (counter_waits_for_visibility counter_demo _
                           [false; true] 1000 eq_refl) Hin)).
Defined.

(** In binary64 a duration of a ten-thousandth of a millisecond is lost
    when added to a clock value of today's size: the frame sampled at
    [startTime] already finds [now < endTime] false and leaves [end]. *)
Lemma counter64_short_duration_snaps :
  AnimatedCounter64.updateCounter
    {| AnimatedCounter64.end_ := Binary64.of_Z 1000;
       AnimatedCounter64.duration :=
         Binary64.div (Binary64.of_Z 1) (Binary64.of_Z 10000) |}
    1700000000000 1700000000000
    {| AnimatedCounter64.count := Binary64.of_Z 0;
       AnimatedCounter64.frames := [] |}
  = {| AnimatedCounter64.count := Binary64.of_Z 1000;
       AnimatedCounter64.frames := [] |}.
Proof. vm_compute. reflexivity. Qed.

(** X20. The curve starts at 0: for a finite [end >= 0] and a finite
    duration of at least one millisecond, a frame sampled in the same
    millisecond as [startTime] leaves the count 0 and requests the next
    frame.  (A duration below the spacing of the clock values can round
    [endTime] down to [startTime], hence the millisecond.) *)
Theorem counter_starts_at_zero (e d : Q) (startTime : Z)
    (c : AnimatedCounter.Instance) :
  (0 <= e)%Q ->
  (1 <= d)%Q ->
  let props := {| AnimatedCounter.end_ := Fin e;
                  AnimatedCounter.duration := Fin d |} in
  let c' := AnimatedCounter.updateCounter props startTime startTime c in
  AnimatedCounter.count c' = Fin 0
  /\ AnimatedCounter.frames c' = AnimatedCounter.frames c ++ [startTime].
Proof.
  intros _ Hd1 props c'. subst c' props.
  assert (Hd : (0 < d)%Q) by lra.
  rewrite updateCounter_spec.
  cbn [AnimatedCounter.count AnimatedCounter.frames]. unfold frame_count.
  pose proof (Qpos_neq0 d Hd) as Hd0.
  rewrite (proj2 (loop_continues_Fin e d startTime startTime)) by lra.
  split; [|reflexivity].
  rewrite eased_count_Fin by exact Hd0. cbn [floor].
  change (Fin 0) with (Fin (inject_Z (Qfloor 0))).
  apply Fin_floor_eq.
  assert (E : ((inject_Z startTime - inject_Z startTime) / d == 0)%Q)
    by (field; exact Hd0).
  unfold ease_out. rewrite Q.min_l by (rewrite E; lra). rewrite E. ring.
Qed.

Lemma counter_starts_at_zero_witness :
  (0 <= 1000)%Q /\ (1 <= 2000)%Q
  /\ AnimatedCounter.count
       (AnimatedCounter.updateCounter counter_demo 1000 1000
          (counter_started 1000))
     = Fin 0.
Proof.
  assert (He : (0 <= 1000)%Q) by (vm_compute; discriminate).
  assert (Hd : (1 <= 2000)%Q) by (vm_compute; discriminate).
  split; [exact He|]. split; [exact Hd|].
  exact (proj1 (counter_starts_at_zero 1000 2000 1000
                  (counter_started 1000) He Hd)).
Defined.
